(** * odo / kdbpy type translation: shapes, q type codes and SparkSQL schemas

    Embedding of [odo/backends/sparksql.py] ([dshape_to_schema],
    [schema_to_dshape], [deoption] and the two scalar tables) and of
    [kdbpy/compute/qtable.py] ([qtypes], [tables], [qp] and the three layout
    predicates), over a model of the [datashape] values and of the
    [pyspark.sql.types] schema trees the two files consume. *)

From Stdlib Require Import String Ascii List ZArith Bool Lia PeanoNat.
From Stdlib Require Import Decimal DecimalString DecimalNat Permutation.
Import ListNotations.
Open Scope string_scope.
Set Warnings "-register-all".

(* ================================================================== *)
(** ** The [datashape] values *)
(* ================================================================== *)

Module datashape.

(** A [Mono]: unit measures ([CType] by name, [String_], [Bytes], [Date],
    [Time], [DateTime], [Null], [TimeDelta]), the dimensions [Var] and
    [Fixed], and the composite types.  A [DataShape] has at least one
    parameter (its constructor refuses an empty parameter list), kept here
    as a head and a tail. *)
Inductive Mono : Type :=
| CType (name : string)
| String_
| Bytes
| Date
| Time
| DateTime
| Null
| TimeDelta (unit_ : string)
| Var
| Fixed (n : Z)
| Option (ty : Mono)
| Record (fields : list (string * Mono))
| Tuple (dshapes : list Mono)
| DataShape (p : Mono) (ps : list Mono).

Definition bool_ : Mono := CType "bool".
Definition int8 : Mono := CType "int8".
Definition int16 : Mono := CType "int16".
Definition int32 : Mono := CType "int32".
Definition int64 : Mono := CType "int64".
Definition float32 : Mono := CType "float32".
Definition float64 : Mono := CType "float64".
(** [real] is the library's second name of [float64]. *)
Definition real : Mono := float64.
Definition string_ : Mono := String_.
Definition bytes_ : Mono := Bytes.
Definition date_ : Mono := Date.
Definition time_ : Mono := Time.
Definition datetime_ : Mono := DateTime.
Definition null : Mono := Null.
Definition var : Mono := Var.

(** [isinstance(ds, Option)], [isinstance(ds, DataShape)]. *)
Definition is_Option (ds : Mono) : bool :=
  match ds with Option _ => true | _ => false end.

Definition is_DataShape (ds : Mono) : bool :=
  match ds with DataShape _ _ => true | _ => false end.

(** [datashape.predicates.isdimension]. *)
Definition isdimension (ds : Mono) : bool :=
  match ds with Var | Fixed _ => true | _ => false end.

(** [len(ds)]: the number of parameters of a [DataShape], 1 otherwise. *)
Definition len (ds : Mono) : nat :=
  match ds with DataShape _ ps => S (length ps) | _ => 1 end.

(** [_launder]: what every constructor applies to the types it is given;
    a one-parameter [DataShape] is replaced by its parameter. *)
Definition launder (x : Mono) : Mono :=
  match x with
  | DataShape p [] => p
  | _ => x
  end.

(** The constructors as the library runs them. *)
Definition mkOption (ty : Mono) : Mono := Option (launder ty).

Definition mkDataShape (p : Mono) (ps : list Mono) : Mono :=
  DataShape (launder p) (map launder ps).

(** [datashape.dshape(o)] on a value that is already a type. *)
Definition dshape (o : Mono) : Mono :=
  match o with
  | DataShape _ _ => o
  | _ => mkDataShape o []
  end.

(** [a * b] ([Mono.__mul__], with [DataShape.__rmul__] flattening). *)
Definition mul (a b : Mono) : Mono :=
  match b with
  | DataShape q qs => mkDataShape a (q :: qs)
  | _ => mkDataShape a [b]
  end.

(** [ds.measure] and [ds.shape]. *)
Definition measure (ds : Mono) : Mono :=
  match ds with
  | DataShape p ps => last ps p
  | _ => ds
  end.

Definition shape (ds : Mono) : list Mono :=
  match ds with
  | DataShape p ps => removelast (p :: ps)
  | _ => []
  end.

(** Structural equality, computed. *)
Fixpoint Mono_eqb (a b : Mono) {struct a} : bool :=
  match a, b with
  | CType x, CType y => String.eqb x y
  | String_, String_ => true
  | Bytes, Bytes => true
  | Date, Date => true
  | Time, Time => true
  | DateTime, DateTime => true
  | Null, Null => true
  | TimeDelta u, TimeDelta v => String.eqb u v
  | Var, Var => true
  | Fixed n, Fixed m => Z.eqb n m
  | Option x, Option y => Mono_eqb x y
  | Record fs, Record gs =>
      (fix fields_eqb (fs gs : list (string * Mono)) {struct fs} : bool :=
         match fs, gs with
         | [], [] => true
         | (n, t) :: fs', (m, u) :: gs' =>
             String.eqb n m && Mono_eqb t u && fields_eqb fs' gs'
         | _, _ => false
         end) fs gs
  | Tuple xs, Tuple ys =>
      (fix list_eqb (xs ys : list Mono) {struct xs} : bool :=
         match xs, ys with
         | [], [] => true
         | x :: xs', y :: ys' => Mono_eqb x y && list_eqb xs' ys'
         | _, _ => false
         end) xs ys
  | DataShape p ps, DataShape q qs =>
      Mono_eqb p q &&
      (fix list_eqb (xs ys : list Mono) {struct xs} : bool :=
         match xs, ys with
         | [], [] => true
         | x :: xs', y :: ys' => Mono_eqb x y && list_eqb xs' ys'
         | _, _ => false
         end) ps qs
  | _, _ => false
  end.

(** [a == b]: the same class and equal parameters.  A [DataShape] is not
    equal to its measure: [DataShape(Record(...)) == Record(...)] and
    [dshape('int32') == int32] are false. *)
Definition Mono_eq (a b : Mono) : bool := Mono_eqb a b.

(** Number of constructors, the measure the conversions descend on. *)
Fixpoint size (m : Mono) : nat :=
  match m with
  | Option ty => S (size ty)
  | Record fs =>
      S ((fix field_sizes (fs : list (string * Mono)) : nat :=
            match fs with
            | [] => 0
            | (_, t) :: fs' => size t + field_sizes fs'
            end) fs)
  | Tuple ds =>
      S ((fix sizes (ds : list Mono) : nat :=
            match ds with
            | [] => 0
            | d :: ds' => size d + sizes ds'
            end) ds)
  | DataShape p ps =>
      S (size p +
         (fix sizes (ds : list Mono) : nat :=
            match ds with
            | [] => 0
            | d :: ds' => size d + sizes ds'
            end) ps)
  | _ => 1
  end.

Fixpoint sizes (ds : list Mono) : nat :=
  match ds with
  | [] => 0
  | d :: ds' => size d + sizes ds'
  end.

Fixpoint field_sizes (fs : list (string * Mono)) : nat :=
  match fs with
  | [] => 0
  | (_, t) :: fs' => size t + field_sizes fs'
  end.

End datashape.

(* ================================================================== *)
(** ** Python exceptions, results and dictionaries *)
(* ================================================================== *)

Module py.
Import datashape.

(** The argument of a [%] format: the [repr] of shapes, of a string, of
    names, or a number. *)
Inductive fmt_arg : Type :=
| ArgShapes (l : list Mono)
| ArgRepr (s : string)
| ArgNames (l : list string)
| ArgInt (z : Z).

(** [template % arg], kept unformatted. *)
Inductive message : Type :=
| Percent (template : string) (arg : fmt_arg)
| Plain (text : string).

(** An exception: its class and the arguments it was raised with ([None]:
    raised with no argument). *)
Inductive exn : Type :=
| TypeError (msg : option message)
| NotImplementedError (msg : option message)
| ValueError (msg : option message)
| IndexError (msg : option message)
| RuntimeError (msg : option message)
| KeyError (key : string).

Inductive result (A : Type) : Type :=
| Ok (a : A)
| Raise (e : exn).
Arguments Ok {A} a.
Arguments Raise {A} e.

Definition bind {A B : Type} (r : result A) (k : A -> result B) : result B :=
  match r with
  | Ok a => k a
  | Raise e => Raise e
  end.

Definition is_Raise {A : Type} (r : result A) : bool :=
  match r with Raise _ => true | Ok _ => false end.

Section comprehension.
Context {A B : Type} (f : A -> result B).

(** [[f(x) for x in l]]: elements in order, the first exception ends it. *)
Fixpoint mapM (l : list A) : result (list B) :=
  match l with
  | [] => Ok []
  | x :: l' =>
      match f x with
      | Raise e => Raise e
      | Ok y =>
          match mapM l' with
          | Raise e => Raise e
          | Ok ys => Ok (y :: ys)
          end
      end
  end.
End comprehension.

Section dict.
Context {K V : Type} (eqb : K -> K -> bool).

(** A dict literal as the list of its entries in source order; of two
    entries with equal keys the later one is the one kept. *)
Fixpoint dict_get (d : list (K * V)) (k : K) : option V :=
  match d with
  | [] => None
  | (k', v) :: d' =>
      match dict_get d' k with
      | Some v' => Some v'
      | None => if eqb k' k then Some v else None
      end
  end.

(** [k in d]. *)
Definition contains (d : list (K * V)) (k : K) : bool :=
  match dict_get d k with Some _ => true | None => false end.
End dict.

(** [d[k]] on a dict with string keys. *)
Definition getitem {V : Type} (d : list (string * V)) (k : string) : result V :=
  match dict_get String.eqb d k with
  | Some v => Ok v
  | None => Raise (KeyError k)
  end.

(** [c.lower()] and [s.lower()] on byte strings. *)
Definition lower_ascii (c : ascii) : ascii :=
  let n := nat_of_ascii c in
  if (65 <=? n)%nat && (n <=? 90)%nat then ascii_of_nat (n + 32) else c.

Fixpoint lower (s : string) : string :=
  match s with
  | EmptyString => EmptyString
  | String c s' => String (lower_ascii c) (lower s')
  end.

(** [zip(xs, ys)]. *)
Fixpoint zip {A B : Type} (xs : list A) (ys : list B) : list (A * B) :=
  match xs, ys with
  | x :: xs', y :: ys' => (x, y) :: zip xs' ys'
  | _, _ => []
  end.

(** No name occurs twice. *)
Fixpoint distinct (names : list string) : bool :=
  match names with
  | [] => true
  | n :: names' =>
      negb (existsb (String.eqb n) names') && distinct names'
  end.

(** [Record(fields)]: the field types are laundered, and a repeated name
    is refused. *)
Definition mkRecord (fields : list (string * Mono)) : result Mono :=
  let names := map fst fields in
  let types := map (fun f => launder (snd f)) fields in
  if distinct names then Ok (Record (zip names types))
  else Raise (ValueError (Some
         (Percent "duplicate field names found: %s" (ArgNames names)))).

End py.

(* ================================================================== *)
(** ** The [pyspark.sql.types] schema trees *)
(* ================================================================== *)

Module pyspark.

Record StructField (T : Type) : Type := mkStructField
  { name : string; dataType : T; nullable : bool }.
Arguments mkStructField {T} name dataType nullable.
Arguments name {T} s.
Arguments dataType {T} s.
Arguments nullable {T} s.

Inductive DataType : Type :=
| NullType
| StringType
| BinaryType
| BooleanType
| DateType
| TimestampType
| DecimalType (precision scale : option Z)
| DoubleType
| FloatType
| ByteType
| IntegerType
| LongType
| ShortType
| ArrayType (elementType : DataType) (containsNull : bool)
| MapType (keyType valueType : DataType) (valueContainsNull : bool)
| StructType (fields : list (StructField DataType)).

(** [type(schema).__name__]. *)
Definition type_name (schema : DataType) : string :=
  match schema with
  | NullType => "NullType"
  | StringType => "StringType"
  | BinaryType => "BinaryType"
  | BooleanType => "BooleanType"
  | DateType => "DateType"
  | TimestampType => "TimestampType"
  | DecimalType _ _ => "DecimalType"
  | DoubleType => "DoubleType"
  | FloatType => "FloatType"
  | ByteType => "ByteType"
  | IntegerType => "IntegerType"
  | LongType => "LongType"
  | ShortType => "ShortType"
  | ArrayType _ _ => "ArrayType"
  | MapType _ _ _ => "MapType"
  | StructType _ => "StructType"
  end.

(** The schema types with no schema inside. *)
Definition atomic (schema : DataType) : bool :=
  match schema with
  | ArrayType _ _ | MapType _ _ _ | StructType _ => false
  | _ => true
  end.

(** Induction on schema trees, through the fields of the structs. *)
Section DataType_induction.
Variable P : DataType -> Prop.
Hypothesis Hatomic : forall schema, atomic schema = true -> P schema.
Hypothesis HArray : forall e n, P e -> P (ArrayType e n).
Hypothesis HMap : forall k v n, P k -> P v -> P (MapType k v n).
Hypothesis HStruct : forall fields,
    Forall (fun field => P (dataType field)) fields -> P (StructType fields).

Fixpoint DataType_fields_ind (schema : DataType) : P schema :=
  match schema with
  | ArrayType e n => HArray e n (DataType_fields_ind e)
  | MapType k v n => HMap k v n (DataType_fields_ind k) (DataType_fields_ind v)
  | StructType fields =>
      HStruct fields
        ((fix go (l : list (StructField DataType))
            : Forall (fun field => P (dataType field)) l :=
            match l with
            | [] => Forall_nil _
            | f :: l' =>
                Forall_cons f (DataType_fields_ind (dataType f)) (go l')
            end) fields)
  | NullType => Hatomic NullType eq_refl
  | StringType => Hatomic StringType eq_refl
  | BinaryType => Hatomic BinaryType eq_refl
  | BooleanType => Hatomic BooleanType eq_refl
  | DateType => Hatomic DateType eq_refl
  | TimestampType => Hatomic TimestampType eq_refl
  | DecimalType p s => Hatomic (DecimalType p s) eq_refl
  | DoubleType => Hatomic DoubleType eq_refl
  | FloatType => Hatomic FloatType eq_refl
  | ByteType => Hatomic ByteType eq_refl
  | IntegerType => Hatomic IntegerType eq_refl
  | LongType => Hatomic LongType eq_refl
  | ShortType => Hatomic ShortType eq_refl
  end.
End DataType_induction.

End pyspark.

(* ================================================================== *)
(** ** [odo/backends/sparksql.py] *)
(* ================================================================== *)

Module sparksql.
Import datashape py pyspark.

(** The table keyed by the schema classes, here by their names. *)
Definition sparksql_to_dshape : list (string * Mono) :=
  [ ("ByteType", int8);
    ("ShortType", int16);
    ("IntegerType", int32);
    ("LongType", int64);
    ("FloatType", float32);
    ("DoubleType", float64);
    ("StringType", string_);
    ("BinaryType", bytes_);
    ("BooleanType", bool_);
    ("TimestampType", datetime_);
    ("DateType", date_) ].

Definition dshape_to_sparksql : list (Mono * DataType) :=
  [ (int16, ShortType);
    (int32, IntegerType);
    (int64, LongType);
    (float32, FloatType);
    (float64, DoubleType);
    (real, DoubleType);
    (time_, TimestampType);
    (date_, DateType);
    (datetime_, TimestampType);
    (bool_, BooleanType);
    (string_, StringType) ].

(** [deoption(ds)] on a shape (the [str] argument of the source is parsed
    into one first). *)
Fixpoint deoption (ds : Mono) : Mono :=
  match ds with
  | DataShape p _ => if negb (isdimension p) then deoption p else ds
  | Option ty => ty
  | _ => ds
  end.

(** [schema_to_dshape(schema)]. *)
Fixpoint schema_to_dshape (schema : DataType) : result Mono :=
  match dict_get String.eqb sparksql_to_dshape (type_name schema) with
  | Some ds => Ok ds
  | None =>
      match schema with
      | ArrayType elementType containsNull =>
          bind (schema_to_dshape elementType) (fun dshape =>
          Ok (mul var (if containsNull then mkOption dshape else dshape)))
      | StructType fields =>
          bind (mapM (fun field =>
                        if nullable field
                        then bind (schema_to_dshape (dataType field))
                               (fun t => Ok (name field, mkOption t))
                        else bind (schema_to_dshape (dataType field))
                               (fun t => Ok (name field, t)))
                     fields) (fun fields' =>
          bind (mkRecord fields') (fun r =>
          Ok (dshape r)))
      | _ =>
          Raise (NotImplementedError (Some
            (Percent "SparkSQL type not known %r" (ArgRepr (type_name schema)))))
      end
  end.

(** [ds[0]]. *)
Definition getitem0 (ds : Mono) : Mono :=
  match ds with
  | DataShape p _ => p
  | _ => ds
  end.

(** [ds.subshape[0]] of a [DataShape] whose first parameter is a
    dimension: [ds.subarray(1)]. *)
Definition subshape0 (ds : Mono) : result Mono :=
  match ds with
  | DataShape _ [] =>
      Raise (IndexError (Some
        (Percent "Not enough dimensions in data shape to remove %d leading dimensions."
                 (ArgInt 1))))
  | DataShape _ [m] => Ok (mkDataShape m [])
  | DataShape _ (q :: qs) => Ok (mkDataShape q qs)
  | _ => Ok ds
  end.

(** [if isinstance(elem, DataShape) and len(elem) == 1: elem = elem[0]]. *)
Definition element (elem : Mono) : Mono :=
  if is_DataShape elem && (len elem =? 1)%nat then getitem0 elem else elem.

(** The recursion of [dshape_to_schema] goes through [deoption] and
    through freshly built sub-shapes, so it is written on a budget of
    nested calls; [None] is the budget running out. *)
Definition part (A : Type) : Type := option (result A).

Definition pbind {A B : Type} (m : part A) (k : A -> part B) : part B :=
  match m with
  | None => None
  | Some (Raise e) => Some (Raise e)
  | Some (Ok a) => k a
  end.

Definition pret {A : Type} (a : A) : part A := Some (Ok a).

Notation "x <- m ;; k" := (pbind m (fun x => k))
  (at level 61, m at next level, right associativity).

Section comprehension.
Context {A B : Type} (f : A -> part B).

Fixpoint pmapM (l : list A) : part (list B) :=
  match l with
  | [] => pret []
  | x :: l' =>
      y <- f x ;;
      ys <- pmapM l' ;;
      pret (y :: ys)
  end.
End comprehension.

Fixpoint dshape_to_schema_fuel (fuel : nat) (ds : Mono) {struct fuel}
  : part DataType :=
  match fuel with
  | O => None
  | S fuel' =>
      match ds with
      | Tuple dshapes =>
          Some (Raise (TypeError (Some
            (Percent "Please provide a Record dshape for these column types: %s"
                     (ArgShapes dshapes)))))
      | Record fields =>
          fs <- pmapM (fun field =>
                  let name := fst field in
                  let typ := snd field in
                  s <- dshape_to_schema_fuel fuel' (deoption typ) ;;
                  pret (mkStructField name s (is_Option typ))) fields ;;
          pret (StructType fs)
      | DataShape p _ =>
          if isdimension p then
            elem <- Some (subshape0 ds) ;;
            let elem := element elem in
            s <- dshape_to_schema_fuel fuel' (deoption elem) ;;
            pret (ArrayType s (is_Option elem))
          else dshape_to_schema_fuel fuel' p
      | _ =>
          (* [if ds in dshape_to_sparksql: return dshape_to_sparksql[ds]] *)
          match dict_get Mono_eq dshape_to_sparksql ds with
          | Some s => pret s
          | None => Some (Raise (NotImplementedError None))
          end
      end
  end.

(** [dshape_to_schema(ds)] on a shape (the [str] argument of the source is
    parsed into one first).  A budget above [size ds] is always enough
    ([dshape_to_schema_fuel_enough] below), so the last case is never
    taken. *)
Definition dshape_to_schema (ds : Mono) : result DataType :=
  match dshape_to_schema_fuel (S (size ds)) ds with
  | Some r => r
  | None => Raise (RuntimeError (Some (Plain "maximum recursion depth exceeded")))
  end.

(** The round trip shape, schema, shape. *)
Definition roundtrip (ds : Mono) : result Mono :=
  bind (dshape_to_schema ds) schema_to_dshape.

(** The round trip schema, shape, schema. *)
Definition roundtrip_schema (schema : DataType) : result DataType :=
  bind (schema_to_dshape schema) dshape_to_schema.

End sparksql.

(* ================================================================== *)
(** ** [kdbpy/compute/qtable.py] *)
(* ================================================================== *)

Module qtable.
Import datashape py.

Definition qtypes : list (string * Mono) :=
  [ ("b", bool_);
    ("x", int8);
    ("h", int16);
    ("i", int32);
    ("j", int64);
    ("e", float32);
    ("f", float64);
    ("c", string_);
    ("s", string_);
    ("m", date_);
    ("d", date_);
    ("z", datetime_);
    ("p", datetime_);
    ("u", TimeDelta "m");
    ("v", TimeDelta "s");
    ("n", TimeDelta "ns");
    ("t", TimeDelta "ms");
    ("", null) ].

(** One table of the store's [meta] answer: the column names ([meta.index])
    and the type column ([meta.t]), in which a missing code is [None]. *)
Record meta : Type := mkMeta
  { index : list string; t : list (option string) }.

Definition fillna (v : string) (xs : list (option string)) : list string :=
  map (fun x => match x with Some s => s | None => v end) xs.

(** [blaze.Symbol(name, ds)]. *)
Record Symbol : Type := mkSymbol
  { sym_name : string; sym_dshape : Mono }.

(** [OrderedDict(pairs)]: a key set again keeps its first position and
    takes the new value. *)
Fixpoint od_set {V : Type} (d : list (string * V)) (k : string) (v : V)
  : list (string * V) :=
  match d with
  | [] => [(k, v)]
  | (k', v') :: d' =>
      if String.eqb k' k then (k', v) :: d' else (k', v') :: od_set d' k v
  end.

Definition Tables (syms : list (string * Symbol)) : list (string * Symbol) :=
  fold_left (fun d kv => od_set d (fst kv) (snd kv)) syms [].

(** [types = [qtypes[t.lower()] for t in meta.t.fillna('')]]. *)
Definition column_types (m : meta) : result (list Mono) :=
  mapM (fun c => getitem qtypes (lower c)) (fillna "" (t m)).

(** [tables(kdb)], on the two answers of the store: [kdb.tables.name] and
    the [meta] of each table. *)
Definition tables (names : list string) (metadata : list meta)
  : result (list (string * Symbol)) :=
  bind (mapM (fun nm =>
                let name := fst nm in
                let meta := snd nm in
                bind (column_types meta) (fun types =>
                let columns := index meta in
                bind (mkRecord (zip columns types)) (fun r =>
                let ds := mul var r in
                Ok (name, mkSymbol name ds))))
             (zip names metadata)) (fun syms =>
  Ok (Tables syms)).

(** What [.item()] hands back of the store's answer. *)
Inductive pyval : Type :=
| PyBool (b : bool)
| PyInt (z : Z)
| PyNone.

(** A table handle: its name and the store it queries, the store as the
    function from a q expression to the answer's item. *)
Record QTable : Type := mkQTable
  { tablename : string; engine : string -> pyval }.

(** [qp(t)] on a table handle. *)
Definition qp (t : QTable) : pyval :=
  engine t (".Q.qp[" ++ tablename t ++ "]").

(** [x is True], [x is False]. *)
Definition is_True (x : pyval) : bool :=
  match x with PyBool true => true | _ => false end.

Definition is_False (x : pyval) : bool :=
  match x with PyBool false => true | _ => false end.

(** [int(x)]. *)
Definition int (x : pyval) : result Z :=
  match x with
  | PyBool true => Ok 1%Z
  | PyBool false => Ok 0%Z
  | PyInt z => Ok z
  | PyNone =>
      Raise (TypeError (Some
        (Plain "int() argument must be a string or a number, not 'NoneType'")))
  end.

(** [n is 0] on an [int]: the interpreter keeps one object for 0, and
    every [int] of value 0 is that object. *)
Definition is_0 (n : Z) : bool := (n =? 0)%Z.

Definition is_partitioned (t : QTable) : bool := is_True (qp t).

Definition is_splayed (t : QTable) : bool := is_False (qp t).

Definition is_standard (t : QTable) : result bool :=
  bind (int (qp t)) (fun n => Ok (is_0 n)).

(** The three answers the store's [.Q.qp] gives. *)
Definition valid_qp (r : pyval) : Prop :=
  r = PyBool true \/ r = PyBool false \/ r = PyInt 0.

(** A handle on a store that answers [r] to every query. *)
Definition answering (r : pyval) : QTable :=
  mkQTable "t" (fun _ => r).

(** The type codes [qtypes] is keyed by. *)
Definition qtype_codes : list string :=
  [ "b"; "x"; "h"; "i"; "j"; "e"; "f"; "c"; "s"; "m"; "d"; "z"; "p";
    "u"; "v"; "n"; "t"; "" ].

End qtable.

(* ================================================================== *)
(** ** Notions the statements below are phrased with *)
(* ================================================================== *)

Module shapes.
Import datashape py pyspark sparksql.

(** [deoption] in two steps: the wrappers it walks through, then the one
    optional layer it removes. *)
Fixpoint unwrap (ds : Mono) : Mono :=
  match ds with
  | DataShape p _ => if negb (isdimension p) then unwrap p else ds
  | _ => ds
  end.

Definition strip_option (ds : Mono) : Mono :=
  match ds with
  | Option ty => ty
  | _ => ds
  end.

(** A [DataShape] whose first parameter is not a dimension: what
    [deoption] walks through. *)
Definition is_wrapper (ds : Mono) : bool :=
  match ds with
  | DataShape p _ => negb (isdimension p)
  | _ => false
  end.

(** The optional layer [deoption] removes, if there is one, holds neither
    another optional layer nor a wrapper. *)
Definition one_layer (ds : Mono) : bool :=
  match unwrap ds with
  | Option ty => negb (is_Option ty) && negb (is_wrapper ty)
  | _ => true
  end.

(** A shape that is neither a tuple, a record nor a [DataShape]: what
    [dshape_to_schema] looks up in its table. *)
Definition looked_up (ds : Mono) : bool :=
  match ds with
  | Tuple _ | Record _ | DataShape _ _ => false
  | _ => true
  end.

(** A schema that is neither an array nor a struct. *)
Definition scalar_schema (schema : DataType) : bool :=
  match schema with
  | ArrayType _ _ | StructType _ => false
  | _ => true
  end.

(** The message of an exception, if it was raised with one. *)
Definition message_of (e : exn) : option message :=
  match e with
  | TypeError msg | NotImplementedError msg | ValueError msg
  | IndexError msg | RuntimeError msg => msg
  | KeyError key => Some (Percent "%r" (ArgRepr key))
  end.

(** The unwrapping of an array element read as the unwrapping of a record
    of one entry to the type of that entry, and the array schema that
    reading gives. *)
Definition unwrap_one_entry_record (elem : Mono) : Mono :=
  match elem with
  | Record [(_, typ)] => typ
  | _ => elem
  end.

Definition array_of_unwrapped_record (elem : Mono) : result DataType :=
  let elem := unwrap_one_entry_record elem in
  bind (dshape_to_schema (deoption elem)) (fun s =>
  Ok (ArrayType s (is_Option elem))).

(** Being, once in the [DataShape] that [datashape.dshape] gives a bare
    type, the shape of a schema; and having a schema. *)
Definition shape_of_a_schema (ds : Mono) : Prop :=
  exists schema, schema_to_dshape schema = Ok (dshape ds).

Definition has_a_schema (ds : Mono) : Prop :=
  exists schema, dshape_to_schema ds = Ok schema.

(** The round trip gives back a shape equal to the one it started from. *)
Definition roundtrips (ds : Mono) : Prop :=
  exists ds', roundtrip ds = Ok ds' /\ Mono_eq ds' ds = true.

(** The unit measures both tables hold, each mapped back to itself. *)
Definition exact_leaves : list Mono :=
  [ int16; int32; int64; float32; float64; date_; datetime_; bool_; string_ ].

(** The shapes built from [exact_leaves] by records with distinct names,
    [var] dimensions, and one optional layer on a field or on the element
    of an array. *)
Fixpoint storable (t : Mono) : bool :=
  match t with
  | Record fields =>
      distinct (map fst fields) &&
      (fix all (fs : list (string * Mono)) : bool :=
         match fs with
         | [] => true
         | f :: fs' =>
             match snd f with
             | Option x => storable x
             | _ => storable (snd f)
             end && all fs'
         end) fields
  | DataShape Var ps =>
      (fix dims (l : list Mono) : bool :=
         match l with
         | [] => false
         | [e] =>
             match e with
             | Option x => storable x
             | DataShape _ _ => false
             | _ => storable e
             end
         | Var :: l' => dims l'
         | _ => false
         end) ps
  | CType _ | String_ | Bytes | Date | Time | DateTime | Null | TimeDelta _ =>
      existsb (Mono_eqb t) exact_leaves
  | _ => false
  end.

Definition field_ok (typ : Mono) : bool :=
  match typ with
  | Option x => storable x
  | _ => storable typ
  end.

Definition elem_ok (e : Mono) : bool :=
  match e with
  | Option x => storable x
  | DataShape _ _ => false
  | _ => storable e
  end.

Fixpoint dims_ok (l : list Mono) : bool :=
  match l with
  | [] => false
  | [e] => elem_ok e
  | Var :: l' => dims_ok l'
  | _ => false
  end.

(** What [schema_to_dshape] gives for the schema of a storable shape. *)
Definition back_shape (t : Mono) : Mono :=
  match t with
  | Record _ => DataShape t []
  | _ => t
  end.

(** The conversion of one field of a struct in [schema_to_dshape]. *)
Definition field_to_dshape (field : StructField DataType)
  : result (string * Mono) :=
  if nullable field
  then bind (schema_to_dshape (dataType field))
         (fun t => Ok (name field, mkOption t))
  else bind (schema_to_dshape (dataType field))
         (fun t => Ok (name field, t)).

(** The conversion of one field of a record in [dshape_to_schema]. *)
Definition field_to_schema (field : string * Mono)
  : result (StructField DataType) :=
  bind (dshape_to_schema (deoption (snd field))) (fun s =>
  Ok (mkStructField (fst field) s (is_Option (snd field)))).

(** A [DataShape] of one parameter: what [launder] replaces. *)
Definition is_singleton (x : Mono) : bool :=
  match x with
  | DataShape _ [] => true
  | _ => false
  end.

(** A unit measure. *)
Definition is_unit (t : Mono) : bool :=
  match t with
  | DataShape _ _ | Option _ | Record _ | Tuple _ | Var | Fixed _ => false
  | _ => true
  end.

(** The forms of the shapes [schema_to_dshape] returns: a unit measure, a
    record in a one-parameter [DataShape], or an array, a [DataShape] that
    starts with [var] and holds no one-parameter [DataShape]. *)
Definition output_form (t : Mono) : bool :=
  match t with
  | DataShape (Record _) [] => true
  | DataShape Var (q :: qs) => forallb (fun x => negb (is_singleton x)) (q :: qs)
  | DataShape _ _ | Option _ | Record _ | Tuple _ | Var | Fixed _ => false
  | _ => true
  end.

(** A schema that holds a [ByteType] or a [BinaryType] somewhere. *)
Fixpoint holds_bytes (schema : DataType) : bool :=
  match schema with
  | ByteType | BinaryType => true
  | ArrayType elementType _ => holds_bytes elementType
  | StructType fields =>
      existsb (fun field => holds_bytes (dataType field)) fields
  | _ => false
  end.

End shapes.

(* ================================================================== *)
(** ** The callers of the conversions in [odo/backends/sparksql.py] *)
(* ================================================================== *)

Module frames.
Import datashape py pyspark sparksql.

Definition is_Record (ds : Mono) : bool :=
  match ds with Record _ => true | _ => false end.


(** The schema [rdd_to_sqlcontext] applies to the RDD, on the [DataShape]
    it is given:
    [if isdimension(dshape.parameters[0]): dshape = dshape.measure],
    then [dshape_to_schema(dshape)]. *)
Definition rdd_sql_schema (p : Mono) (ps : list Mono) : result DataType :=
  let dshape := DataShape p ps in
  let dshape := if isdimension p then measure dshape else dshape in
  dshape_to_schema dshape.


(** [discover_spark_data_frame(df)], on [df.schema]. *)
Definition discover_spark_data_frame (schema : DataType) : result Mono :=
  bind (schema_to_dshape schema) (fun t => Ok (mul var t)).

(** ['tmp%d' % i], the names of [_names], and [name or next(_names)] on
    the number of names [_names] has given so far. *)
Definition tmp_name (i : nat) : string :=
  "tmp" ++ NilEmpty.string_of_uint (Nat.to_uint i).

Definition next_name (given : nat) : string * nat :=
  (tmp_name given, S given).

Definition table_name (name : option string) (given : nat) : string * nat :=
  match name with
  | Some (String c s) => (String c s, given)
  | _ => next_name given
  end.

(** The names of a run of registrations, each with the name it asks for
    or none. *)
Fixpoint table_names (asked : list (option string)) (given : nat)
  : list string :=
  match asked with
  | [] => []
  | name :: asked' =>
      let (n, given') := table_name name given in
      n :: table_names asked' given'
  end.

End frames.

(* ================================================================== *)
(** ** The rest of [kdbpy/compute/qtable.py] *)
(* ================================================================== *)

Module handles.
Import datashape py qtable.


(** [discover_kq(kq)]:
    [DataShape(Record([(k, v.dshape) for k, v in tables(kq).items()]))]. *)
Definition discover_kq (names : list string) (metadata : list meta)
  : result Mono :=
  bind (tables names metadata) (fun tbl =>
  bind (mkRecord (map (fun kv => (fst kv, sym_dshape (snd kv))) tbl)) (fun r =>
  Ok (mkDataShape r []))).

(** A [meta] answer with its type codes in lower case. *)
Definition lower_codes (m : meta) : meta :=
  mkMeta (index m) (map (option_map lower) (t m)).

(** A code [qtypes] holds once lowered, a missing code counting as the
    empty one. *)
Definition known_code (c : option string) : bool :=
  match c with
  | Some s => contains String.eqb qtypes (lower s)
  | None => true
  end.

(** The shape [tables] gives a table: unbounded rows of a record. *)
Definition table_dshape (ds : Mono) : Prop :=
  exists fields,
    ds = DataShape Var [Record fields] /\ distinct (map fst fields) = true.

End handles.

(* ================================================================== *)
(** ** Kinds of schemas *)
(* ================================================================== *)

Module schemas.
Import datashape py pyspark sparksql.

(** The schemas built from the scalar types [ok] accepts by arrays and
    by structs whose fields have distinct names. *)
Fixpoint built_from (ok : DataType -> bool) (schema : DataType) : bool :=
  match schema with
  | ArrayType elementType _ => built_from ok elementType
  | StructType fields =>
      distinct (map name fields) &&
      forallb (fun field => built_from ok (dataType field)) fields
  | MapType _ _ _ => false
  | _ => ok schema
  end.

(** A scalar type [sparksql_to_dshape] holds, and one whose shape
    [dshape_to_sparksql] holds as well. *)
Definition in_table (schema : DataType) : bool :=
  contains String.eqb sparksql_to_dshape (type_name schema).

Definition in_both_tables (schema : DataType) : bool :=
  match dict_get String.eqb sparksql_to_dshape (type_name schema) with
  | Some t => contains Mono_eq dshape_to_sparksql t
  | None => false
  end.

Definition readable (schema : DataType) : bool := built_from in_table schema.

Definition plain (schema : DataType) : bool := built_from in_both_tables schema.

(** The scalar types of a schema, under any arrays and structs, are all
    accepted by [ok], and the schema holds no map. *)
Fixpoint scalars_all (ok : DataType -> bool) (schema : DataType) : bool :=
  match schema with
  | ArrayType elementType _ => scalars_all ok elementType
  | StructType fields =>
      forallb (fun field => scalars_all ok (dataType field)) fields
  | MapType _ _ _ => false
  | _ => ok schema
  end.

(** [k] array levels, none nullable, around [s]. *)
Fixpoint nest (k : nat) (s : DataType) : DataType :=
  match k with
  | O => s
  | S k' => ArrayType (nest k' s) false
  end.

End schemas.

(* ================================================================== *)
(** ** Dictionaries and comprehensions *)
(* ================================================================== *)

Section dict_facts.
Import py.
Context {V : Type}.

Lemma dict_get_notin (d : list (string * V)) (k : string) :
  ~ In k (map fst d) -> dict_get String.eqb d k = None.
Proof.
  induction d as [|[k' v] d IH]; simpl; intros Hk; [reflexivity|].
  rewrite IH by tauto.
  destruct (String.eqb_spec k' k) as [->|_]; [tauto | reflexivity].
Qed.

Lemma dict_get_in (d : list (string * V)) (k : string) :
  In k (map fst d) -> exists v, dict_get String.eqb d k = Some v.
Proof.
  induction d as [|[k' v] d IH]; simpl; [tauto|].
  intros [->|Hk].
  - destruct (dict_get String.eqb d k) as [v'|]; [now exists v'|].
    rewrite String.eqb_refl. now exists v.
  - destruct (IH Hk) as [v' ->]. now exists v'.
Qed.

Lemma getitem_notin (d : list (string * V)) (k : string) :
  ~ In k (map fst d) -> getitem d k = Raise (KeyError k).
Proof.
  intros Hk. unfold getitem. now rewrite dict_get_notin.
Qed.
End dict_facts.

(* ================================================================== *)
(** ** The q type codes and the layout predicates *)
(* ================================================================== *)

Section qtable_facts.
Import datashape py qtable.

Lemma qtype_codes_keys : map fst qtypes = qtype_codes.
Proof. reflexivity. Qed.

Example column_code_is_lowered :
  column_types (mkMeta ["a"; "b"; "c"] [Some "J"; None; Some "s"])
  = Ok [int64; null; string_].
Proof. reflexivity. Qed.

Example unknown_column_code :
  column_types (mkMeta ["a"; "b"] [Some "j"; Some "q"])
  = Raise (KeyError "q").
Proof. reflexivity. Qed.

Example tables_one_table :
  tables ["trade"] [mkMeta ["sym"; "price"] [Some "s"; Some "f"]]
  = Ok [("trade",
         mkSymbol "trade"
           (DataShape Var [Record [("sym", string_); ("price", float64)]]))].
Proof. reflexivity. Qed.

(** C3.  Every code of the enumeration has a shape in [qtypes], the null
    shape exactly for the empty code; ["j"] has [int64]; a code outside
    the enumeration raises [KeyError] on that code. *)
Theorem qtypes_lookup :
  (forall code, In code qtype_codes ->
     exists ds, getitem qtypes code = Ok ds /\ (ds = null <-> code = "")) /\
  getitem qtypes "" = Ok null /\
  getitem qtypes "j" = Ok int64 /\
  (forall code, ~ In code qtype_codes ->
     getitem qtypes code = Raise (KeyError code)).
Proof.
  split; [|split; [reflexivity|split; [reflexivity|]]].
  - intros code Hin. unfold qtype_codes in Hin. simpl in Hin.
    repeat (destruct Hin as [<-|Hin];
            [eexists; split; [reflexivity|];
             split; intros E; first [reflexivity | discriminate E]|]).
    contradiction.
  - intros code Hout. apply getitem_notin.
    now rewrite qtype_codes_keys.
Qed.

Lemma qtypes_lookup_witness :
  In "j" qtype_codes /\
  exists ds, getitem qtypes "j" = Ok ds /\ (ds = null <-> "j" = "").
Proof.
  split.
  - simpl. tauto.
  - apply (proj1 qtypes_lookup "j"). simpl. tauto.
Defined.

(** C8.  A table found partitioned is found neither splayed nor
    standard. *)
Theorem partitioned_excludes_others (t : QTable) :
  is_partitioned t = true ->
  is_splayed t = false /\ is_standard t = Ok false.
Proof.
  unfold is_partitioned, is_splayed, is_standard.
  destruct (qp t) as [[|]|z|]; simpl; intros H;
    first [discriminate H | split; reflexivity].
Qed.

Lemma partitioned_excludes_others_witness :
  is_partitioned (answering (PyBool true)) = true /\
  is_splayed (answering (PyBool true)) = false /\
  is_standard (answering (PyBool true)) = Ok false.
Proof.
  split.
  - reflexivity.
  - apply (partitioned_excludes_others (answering (PyBool true))).
    reflexivity.
Defined.

(** The store answering boolean false: the table is found splayed, and
    [int(False) is 0] finds it standard as well. *)
Lemma splayed_answer_also_standard :
  is_splayed (answering (PyBool false)) = true /\
  is_standard (answering (PyBool false)) = Ok true.
Proof. split; reflexivity. Qed.

(** C2, as stated, fails: the answer 5 is none of the three valid
    answers, and the three predicates return false on it, none raising. *)
Lemma invalid_answer_not_refused :
  ~ valid_qp (qp (answering (PyInt 5))) /\
  is_partitioned (answering (PyInt 5)) = false /\
  is_splayed (answering (PyInt 5)) = false /\
  is_standard (answering (PyInt 5)) = Ok false.
Proof.
  split; [|repeat split].
  unfold valid_qp. simpl. intros [H|[H|H]]; discriminate H.
Qed.

(** C2, amended.  Partitioned is the answer true and splayed the answer
    false; on an integer answer standard is the answer 0, and the answer
    true is not standard; the three valid answers are each classified;
    on any answer but boolean false at most one predicate holds; an
    integer answer other than 0 is classified as none of the three, with
    no error. *)
Theorem layout_classification (t : QTable) :
  (is_partitioned t = true <-> qp t = PyBool true) /\
  (is_splayed t = true <-> qp t = PyBool false) /\
  (forall z, qp t = PyInt z -> is_standard t = Ok (z =? 0)%Z) /\
  (qp t = PyBool true -> is_standard t = Ok false) /\
  (valid_qp (qp t) ->
     is_partitioned t = true \/ is_splayed t = true \/
     is_standard t = Ok true) /\
  (qp t <> PyBool false ->
     ~ (is_partitioned t = true /\ is_splayed t = true) /\
     ~ (is_partitioned t = true /\ is_standard t = Ok true) /\
     ~ (is_splayed t = true /\ is_standard t = Ok true)) /\
  (forall z, qp t = PyInt z -> z <> 0%Z ->
     is_partitioned t = false /\ is_splayed t = false /\
     is_standard t = Ok false).
Proof.
  unfold is_partitioned, is_splayed, is_standard, valid_qp.
  destruct (qp t) as [[|]|z|]; simpl.
  all: repeat match goal with |- _ /\ _ => split end.
  all: try (split; intros H; first [reflexivity | discriminate H]).
  all: try (intros z' H; first [discriminate H | injection H as <-]).
  all: try reflexivity.
  all: try (intros H; discriminate H).
  all: try (intros _; first [left; reflexivity | right; left; reflexivity]).
  all: try (intros _; repeat split; intros [H1 H2];
            first [discriminate H1 | discriminate H2]).
  all: try (intros H; exfalso; apply H; reflexivity).
  - intros [H|[H|H]]; try discriminate H.
    injection H as ->. right; right. reflexivity.
  - intros Hz. repeat split.
    unfold is_0. destruct (Z.eqb_spec z 0); [contradiction | reflexivity].
  - intros [H|[H|H]]; discriminate H.
Qed.

Lemma layout_classification_witness :
  valid_qp (qp (answering (PyInt 0))) /\
  (is_partitioned (answering (PyInt 0)) = true \/
   is_splayed (answering (PyInt 0)) = true \/
   is_standard (answering (PyInt 0)) = Ok true).
Proof.
  assert (H : valid_qp (qp (answering (PyInt 0)))).
  { right; right. reflexivity. }
  split; [exact H|].
  exact (proj1 (proj2 (proj2 (proj2 (proj2
           (layout_classification (answering (PyInt 0))))))) H).
Defined.
End qtable_facts.

(* ================================================================== *)
(** ** Sizes of shapes *)
(* ================================================================== *)

Section size_facts.
Import datashape py sparksql.

Lemma size_DataShape (p : Mono) (ps : list Mono) :
  size (DataShape p ps) = S (size p + sizes ps).
Proof. reflexivity. Qed.

Lemma size_Record (fs : list (string * Mono)) :
  size (Record fs) = S (field_sizes fs).
Proof. reflexivity. Qed.

Lemma size_pos (m : Mono) : 0 < size m.
Proof. destruct m; cbn [size]; lia. Qed.

Lemma size_launder (x : Mono) : size (launder x) <= size x.
Proof.
  destruct x as [| | | | | | | | | | | | |p [|q qs]]; simpl; lia.
Qed.

Lemma sizes_launder (l : list Mono) : sizes (map launder l) <= sizes l.
Proof.
  induction l as [|x l IH]; simpl; [lia|].
  pose proof (size_launder x). lia.
Qed.

Lemma size_mkDataShape (p : Mono) (ps : list Mono) :
  size (mkDataShape p ps) <= S (size p + sizes ps).
Proof.
  unfold mkDataShape. rewrite size_DataShape.
  pose proof (size_launder p). pose proof (sizes_launder ps). lia.
Qed.

Lemma size_deoption (ds : Mono) : size (deoption ds) <= size ds.
Proof.
  induction ds as [| | | | | | | | | |ty IH|fs|ds|p IH ps];
    try (cbn [deoption]; lia).
  - cbn [deoption size]. lia.
  - cbn [deoption]. destruct (negb (isdimension p)); [|lia].
    rewrite size_DataShape. lia.
Qed.

Lemma size_field_in (f : string * Mono) (fs : list (string * Mono)) :
  In f fs -> size (snd f) <= field_sizes fs.
Proof.
  induction fs as [|[n t] fs IH]; simpl; [tauto|].
  intros [<-|Hin]; simpl; [lia|]. specialize (IH Hin). lia.
Qed.

Lemma size_subshape0 (p : Mono) (ps : list Mono) (elem : Mono) :
  subshape0 (DataShape p ps) = Ok elem ->
  size elem < size (DataShape p ps).
Proof.
  rewrite size_DataShape.
  destruct ps as [|q [|q' qs]]; cbn [subshape0]; intros H;
    try discriminate H; injection H as <-.
  - pose proof (size_mkDataShape q []). pose proof (size_pos p).
    cbn [sizes] in *. lia.
  - pose proof (size_mkDataShape q (q' :: qs)). pose proof (size_pos p).
    cbn [sizes] in *. lia.
Qed.

Lemma size_getitem0 (ds : Mono) : size (getitem0 ds) <= size ds.
Proof.
  destruct ds as [| | | | | | | | | | | | |p ps]; cbn [getitem0]; try lia.
  rewrite size_DataShape. lia.
Qed.
End size_facts.

(* ================================================================== *)
(** ** [dshape_to_schema] is total, and its equations *)
(* ================================================================== *)

Section fuel_facts.
Import datashape py pyspark sparksql shapes.

Lemma pmapM_ext_in {A B : Type} (f g : A -> part B) (l : list A) :
  (forall x, In x l -> f x = g x) -> pmapM f l = pmapM g l.
Proof.
  induction l as [|x l IH]; intros H; cbn [pmapM]; [reflexivity|].
  rewrite (H x) by (left; reflexivity).
  rewrite IH by (intros y Hy; apply H; right; exact Hy).
  reflexivity.
Qed.

Lemma pmapM_some {A B : Type} (f : A -> part B) (l : list A) :
  (forall x, In x l -> exists r, f x = Some r) ->
  exists r, pmapM f l = Some r.
Proof.
  induction l as [|x l IH]; intros H; cbn [pmapM].
  - eexists; reflexivity.
  - destruct (H x) as [[y|e] ->]; [left; reflexivity| |];
      cbn [pbind]; [|eexists; reflexivity].
    destruct IH as [[ys|e] ->];
      [intros z Hz; apply H; right; exact Hz| |];
      cbn [pbind]; eexists; reflexivity.
Qed.

Lemma pmapM_total {A B : Type} (g : A -> result B) (l : list A) :
  pmapM (fun x => Some (g x)) l = Some (mapM g l).
Proof.
  induction l as [|x l IH]; cbn [pmapM mapM]; [reflexivity|].
  destruct (g x) as [y|e]; cbn [pbind]; [|reflexivity].
  rewrite IH. destruct (mapM g l); reflexivity.
Qed.

Lemma size_element (elem : Mono) : size (element elem) <= size elem.
Proof.
  unfold element.
  destruct (is_DataShape elem && (len elem =? 1)%nat); [|lia].
  apply size_getitem0.
Qed.

Lemma dshape_to_schema_fuel_indep (n : nat) :
  forall (m : nat) (ds : Mono),
    size ds < n -> size ds < m ->
    dshape_to_schema_fuel n ds = dshape_to_schema_fuel m ds.
Proof.
  induction n as [|n IH]; intros m ds Hn Hm; [lia|].
  destruct m as [|m]; [lia|].
  cbn [dshape_to_schema_fuel].
  destruct ds as [| | | | | | | | | | |fields| |p ps]; try reflexivity.
  - rewrite size_Record in Hn, Hm.
    rewrite (pmapM_ext_in _
               (fun field =>
                  s <- dshape_to_schema_fuel m (deoption (snd field)) ;;
                  pret (mkStructField (fst field) s (is_Option (snd field)))));
      [reflexivity|].
    intros f Hf.
    pose proof (size_field_in f fields Hf).
    pose proof (size_deoption (snd f)).
    rewrite (IH m) by lia. reflexivity.
  - destruct (isdimension p).
    + destruct (subshape0 (DataShape p ps)) as [elem|e] eqn:E;
        cbn [pbind]; [|reflexivity].
      apply size_subshape0 in E.
      pose proof (size_element elem).
      pose proof (size_deoption (element elem)).
      rewrite (IH m) by lia. reflexivity.
    + rewrite size_DataShape in Hn, Hm. apply IH; lia.
Qed.

Lemma dshape_to_schema_fuel_enough (n : nat) :
  forall ds : Mono,
    size ds < n -> exists r, dshape_to_schema_fuel n ds = Some r.
Proof.
  induction n as [|n IH]; intros ds Hn; [lia|].
  cbn [dshape_to_schema_fuel].
  destruct ds as [| | | | | | | | | | |fields| |p ps];
    try (match goal with
         | |- context [dict_get ?e ?d ?k] => destruct (dict_get e d k)
         end; eexists; reflexivity);
    try (eexists; reflexivity).
  - rewrite size_Record in Hn.
    destruct (pmapM_some
                (fun field =>
                   s <- dshape_to_schema_fuel n (deoption (snd field)) ;;
                   pret (mkStructField (fst field) s (is_Option (snd field))))
                fields) as [[fs|e] ->]; cbn [pbind]; try (eexists; reflexivity).
    intros f Hf.
    pose proof (size_field_in f fields Hf).
    pose proof (size_deoption (snd f)).
    destruct (IH (deoption (snd f))) as [[s|e] ->]; [lia| |];
      cbn [pbind]; eexists; reflexivity.
  - destruct (isdimension p).
    + destruct (subshape0 (DataShape p ps)) as [elem|e] eqn:E;
        cbn [pbind]; [|eexists; reflexivity].
      apply size_subshape0 in E.
      pose proof (size_element elem).
      pose proof (size_deoption (element elem)).
      destruct (IH (deoption (element elem))) as [[s|e] ->]; [lia| |];
        cbn [pbind]; eexists; reflexivity.
    + rewrite size_DataShape in Hn. apply IH; lia.
Qed.

(** Any budget above the size of the shape gives the result of
    [dshape_to_schema]. *)
Lemma dshape_to_schema_fuel_total (n : nat) (ds : Mono) :
  size ds < n -> dshape_to_schema_fuel n ds = Some (dshape_to_schema ds).
Proof.
  intros Hn. unfold dshape_to_schema.
  rewrite (dshape_to_schema_fuel_indep n (S (size ds))) by lia.
  destruct (dshape_to_schema_fuel_enough (S (size ds)) ds) as [r ->];
    [lia | reflexivity].
Qed.

Lemma dshape_to_schema_Tuple (dshapes : list Mono) :
  dshape_to_schema (Tuple dshapes)
  = Raise (TypeError (Some
      (Percent "Please provide a Record dshape for these column types: %s"
               (ArgShapes dshapes)))).
Proof. reflexivity. Qed.

Lemma dshape_to_schema_Record (fields : list (string * Mono)) :
  dshape_to_schema (Record fields)
  = bind (mapM (fun field =>
                  bind (dshape_to_schema (deoption (snd field))) (fun s =>
                  Ok (mkStructField (fst field) s (is_Option (snd field)))))
               fields) (fun fs =>
    Ok (StructType fs)).
Proof.
  unfold dshape_to_schema at 1. cbn [dshape_to_schema_fuel].
  rewrite (pmapM_ext_in _
             (fun field =>
                Some (bind (dshape_to_schema (deoption (snd field))) (fun s =>
                      Ok (mkStructField (fst field) s (is_Option (snd field))))))).
  - rewrite pmapM_total.
    destruct (mapM _ fields); reflexivity.
  - intros f Hf.
    pose proof (size_field_in f fields Hf).
    pose proof (size_deoption (snd f)).
    rewrite dshape_to_schema_fuel_total by (rewrite size_Record; lia).
    destruct (dshape_to_schema (deoption (snd f))); reflexivity.
Qed.

Lemma dshape_to_schema_dimension (p : Mono) (ps : list Mono) :
  isdimension p = true ->
  dshape_to_schema (DataShape p ps)
  = bind (subshape0 (DataShape p ps)) (fun elem =>
    bind (dshape_to_schema (deoption (element elem))) (fun s =>
    Ok (ArrayType s (is_Option (element elem))))).
Proof.
  intros Hp. unfold dshape_to_schema at 1. cbn [dshape_to_schema_fuel].
  rewrite Hp.
  destruct (subshape0 (DataShape p ps)) as [elem|e] eqn:E;
    cbn [pbind bind]; [|reflexivity].
  apply size_subshape0 in E.
  fold (element elem).
  pose proof (size_element elem).
  pose proof (size_deoption (element elem)).
  rewrite dshape_to_schema_fuel_total by lia.
  destruct (dshape_to_schema (deoption (element elem))); reflexivity.
Qed.

Lemma dshape_to_schema_wrapper (p : Mono) (ps : list Mono) :
  isdimension p = false ->
  dshape_to_schema (DataShape p ps) = dshape_to_schema p.
Proof.
  intros Hp. unfold dshape_to_schema at 1. cbn [dshape_to_schema_fuel].
  rewrite Hp.
  rewrite dshape_to_schema_fuel_total by (rewrite size_DataShape; lia).
  reflexivity.
Qed.

(** On any other shape: the lookup in [dshape_to_sparksql]. *)
Lemma dshape_to_schema_lookup (ds : Mono) :
  looked_up ds = true ->
  dshape_to_schema ds
  = match dict_get Mono_eq dshape_to_sparksql ds with
    | Some s => Ok s
    | None => Raise (NotImplementedError None)
    end.
Proof.
  intros H. destruct ds; try discriminate H;
    unfold dshape_to_schema; cbn [dshape_to_schema_fuel];
    match goal with
    | |- context [dict_get ?e ?d ?k] => destruct (dict_get e d k)
    end; reflexivity.
Qed.
End fuel_facts.

(* ================================================================== *)
(** ** [deoption] *)
(* ================================================================== *)

Section deoption_facts.
Import datashape py pyspark sparksql shapes.

Lemma deoption_unwrap (ds : Mono) :
  deoption ds = strip_option (unwrap ds).
Proof.
  induction ds as [| | | | | | | | | |ty IH|fs|ds|p IH ps];
    cbn [deoption unwrap strip_option]; try reflexivity.
  destruct (negb (isdimension p)); [exact IH | reflexivity].
Qed.

Lemma unwrap_not_wrapper (ds : Mono) : is_wrapper (unwrap ds) = false.
Proof.
  induction ds as [| | | | | | | | | |ty IH|fs|ds|p IH ps];
    cbn [unwrap]; try reflexivity.
  destruct (negb (isdimension p)) eqn:E; [exact IH|].
  cbn [is_wrapper]. exact E.
Qed.

(** The shapes [deoption] leaves as they are. *)
Lemma deoption_fixed (x : Mono) :
  deoption x = x <-> is_Option x = false /\ is_wrapper x = false.
Proof.
  split.
  - intros E. pose proof (size_deoption x) as Hs.
    destruct x as [| | | | | | | | | |ty|fs|ds|p ps];
      try (split; reflexivity).
    + cbn [deoption] in E. exfalso.
      assert (H : size ty = size (Option ty)) by (rewrite <- E; reflexivity).
      cbn [size] in H. lia.
    + split; [reflexivity|]. cbn [is_wrapper].
      destruct (negb (isdimension p)) eqn:Hp; [|reflexivity].
      exfalso. cbn [deoption] in E. rewrite Hp in E.
      pose proof (size_deoption p) as Hp'.
      assert (H : size (deoption p) = size (DataShape p ps))
        by (rewrite E; reflexivity).
      rewrite size_DataShape in H. lia.
  - intros [Ho Hw].
    destruct x as [| | | | | | | | | |ty|fs|ds|p ps];
      try reflexivity; try discriminate Ho.
    cbn [is_wrapper] in Hw. cbn [deoption]. rewrite Hw. reflexivity.
Qed.

(** C4, as stated, fails: on an optional of an optional [deoption]
    removes one layer each time it is applied. *)
Lemma deoption_not_idempotent :
  deoption (deoption (Option (Option int32))) <> deoption (Option (Option int32)).
Proof. cbn. intros H. discriminate H. Qed.

(** C4, amended.  [deoption] walks through the [DataShape] wrappers whose
    first parameter is not a dimension and, where it stops, removes one
    optional layer if there is one; applying it twice is applying it once
    exactly when that optional layer holds neither another optional layer
    nor such a wrapper. *)
Theorem deoption_idempotent_iff (ds : Mono) :
  deoption ds = strip_option (unwrap ds) /\
  (deoption (deoption ds) = deoption ds <-> one_layer ds = true).
Proof.
  split; [apply deoption_unwrap|].
  rewrite deoption_fixed, deoption_unwrap. unfold one_layer.
  pose proof (unwrap_not_wrapper ds) as Hw.
  destruct (unwrap ds) as [| | | | | | | | | |ty|fs|l|p ps];
    cbn [strip_option]; cbn [is_Option];
    try (split; [reflexivity | intros _; split; [reflexivity | exact Hw]]).
  destruct (is_Option ty), (is_wrapper ty); cbn;
    split; try tauto; try (intros [H1 H2]; discriminate);
    intros H; discriminate H.
Qed.

Lemma deoption_idempotent_iff_witness :
  one_layer (DataShape (Option int32) []) = true /\
  deoption (deoption (DataShape (Option int32) []))
  = deoption (DataShape (Option int32) []).
Proof.
  assert (H : one_layer (DataShape (Option int32) []) = true) by reflexivity.
  split; [exact H|].
  exact (proj2 (proj2 (deoption_idempotent_iff
                         (DataShape (Option int32) []))) H).
Defined.
End deoption_facts.

(* ================================================================== *)
(** ** [dshape_to_schema] and [schema_to_dshape], case by case *)
(* ================================================================== *)

Section conversion_facts.
Import datashape py pyspark sparksql shapes.

(** C5.  A tuple shape, bare or as the only parameter of a [DataShape],
    is refused with a [TypeError] whose message asks for a record and
    carries the tuple's types; no schema is returned. *)
Theorem tuple_rejected (dshapes ps : list Mono) :
  dshape_to_schema (Tuple dshapes)
  = Raise (TypeError (Some
      (Percent "Please provide a Record dshape for these column types: %s"
               (ArgShapes dshapes)))) /\
  dshape_to_schema (DataShape (Tuple dshapes) ps)
  = dshape_to_schema (Tuple dshapes).
Proof.
  split.
  - apply dshape_to_schema_Tuple.
  - apply dshape_to_schema_wrapper. reflexivity.
Qed.

Lemma subshape0_cons (p q : Mono) (qs : list Mono) :
  subshape0 (DataShape p (q :: qs)) = Ok (mkDataShape q qs).
Proof. destruct qs; reflexivity. Qed.

Lemma element_measure (q : Mono) : element (mkDataShape q []) = launder q.
Proof. reflexivity. Qed.

Lemma element_dimensions (q q' : Mono) (qs : list Mono) :
  element (mkDataShape q (q' :: qs)) = mkDataShape q (q' :: qs).
Proof. reflexivity. Qed.

(** C6, as stated, fails: the record of one entry under a dimension is
    not unwrapped to its entry; it is converted whole, to a struct. *)
Lemma one_entry_record_kept :
  dshape_to_schema (DataShape Var [Record [("a", int32)]])
  = Ok (ArrayType (StructType [mkStructField "a" IntegerType false]) false) /\
  array_of_unwrapped_record (Record [("a", int32)])
  = Ok (ArrayType IntegerType false) /\
  dshape_to_schema (DataShape Var [Record [("a", int32)]])
  <> array_of_unwrapped_record (Record [("a", int32)]).
Proof.
  split; [reflexivity|]. split; [reflexivity|].
  intros H. vm_compute in H. discriminate H.
Qed.

(** C6, amended.  Under a dimension the array schema's element type is
    the conversion of the element shape, the rest of the parameters as a
    [DataShape], replaced by its parameter when it has only one (whatever
    that parameter is: a record stays whole), with the optional layer
    removed; the array is nullable when that element is an [Option]. *)
Theorem dimension_to_array (p q : Mono) (qs : list Mono) :
  isdimension p = true ->
  dshape_to_schema (DataShape p (q :: qs))
  = bind (dshape_to_schema (deoption (element (mkDataShape q qs)))) (fun s =>
    Ok (ArrayType s (is_Option (element (mkDataShape q qs))))) /\
  element (mkDataShape q qs)
  = match qs with
    | [] => launder q
    | _ :: _ => mkDataShape q qs
    end.
Proof.
  intros Hp. split.
  - rewrite dshape_to_schema_dimension by exact Hp.
    rewrite subshape0_cons. reflexivity.
  - destruct qs; reflexivity.
Qed.

Lemma dimension_to_array_witness :
  isdimension (Fixed 5) = true /\
  dshape_to_schema (DataShape (Fixed 5) [Option int32])
  = Ok (ArrayType IntegerType true).
Proof.
  assert (H : isdimension (Fixed 5) = true) by reflexivity.
  split; [exact H|].
  rewrite (proj1 (dimension_to_array (Fixed 5) (Option int32) [] H)).
  reflexivity.
Defined.

(** C7, as stated, fails: the error of [dshape_to_schema] on a shape its
    table does not hold is raised with no message at all. *)
Lemma unmapped_shape_error_has_no_message :
  looked_up int8 = true /\
  contains Mono_eq dshape_to_sparksql int8 = false /\
  dshape_to_schema int8 = Raise (NotImplementedError None) /\
  message_of (NotImplementedError None) = None.
Proof. repeat split. Qed.

(** C7, amended.  A shape looked up in [dshape_to_sparksql] and not
    found raises [NotImplementedError] with no message; a schema that is
    neither in [sparksql_to_dshape] nor an array nor a struct raises
    [NotImplementedError] with a message that carries the name of the
    schema's type. *)
Theorem unmapped_leaf_errors :
  (forall ds : Mono,
     looked_up ds = true ->
     contains Mono_eq dshape_to_sparksql ds = false ->
     dshape_to_schema ds = Raise (NotImplementedError None)) /\
  (forall schema : DataType,
     scalar_schema schema = true ->
     contains String.eqb sparksql_to_dshape (type_name schema) = false ->
     schema_to_dshape schema
     = Raise (NotImplementedError (Some
         (Percent "SparkSQL type not known %r"
                  (ArgRepr (type_name schema)))))).
Proof.
  split.
  - intros ds Hl Hc. rewrite dshape_to_schema_lookup by exact Hl.
    unfold contains in Hc.
    destruct (dict_get Mono_eq dshape_to_sparksql ds);
      [discriminate Hc | reflexivity].
  - intros schema Hs Hc.
    destruct schema; try discriminate Hs; try discriminate Hc; reflexivity.
Qed.

Lemma unmapped_leaf_errors_witness :
  dshape_to_schema (TimeDelta "ns") = Raise (NotImplementedError None) /\
  schema_to_dshape (MapType StringType LongType true)
  = Raise (NotImplementedError (Some
      (Percent "SparkSQL type not known %r" (ArgRepr "MapType")))).
Proof.
  split.
  - apply (proj1 unmapped_leaf_errors (TimeDelta "ns")); reflexivity.
  - apply (proj2 unmapped_leaf_errors (MapType StringType LongType true));
      reflexivity.
Defined.

(** C9.  [time_] and [datetime_], two shapes, both have the schema
    [TimestampType], and [real] has [DoubleType]; the round trip of
    [time_] gives [datetime_]. *)
Theorem time_and_datetime_share_timestamp :
  dshape_to_schema time_ = Ok TimestampType /\
  dshape_to_schema datetime_ = Ok TimestampType /\
  time_ <> datetime_ /\
  dshape_to_schema real = Ok DoubleType /\
  roundtrip time_ = Ok datetime_ /\
  Mono_eq datetime_ time_ = false.
Proof.
  repeat split. intros H. discriminate H.
Qed.

End conversion_facts.

(* ================================================================== *)
(** ** The round trip shape, schema, shape *)
(* ================================================================== *)

Section roundtrip_facts.
Import datashape py pyspark sparksql shapes.

Lemma schema_to_dshape_ArrayType (elementType : DataType) (containsNull : bool) :
  schema_to_dshape (ArrayType elementType containsNull)
  = bind (schema_to_dshape elementType) (fun dshape =>
    Ok (mul var (if containsNull then mkOption dshape else dshape))).
Proof. reflexivity. Qed.

Lemma schema_to_dshape_StructType (fields : list (StructField DataType)) :
  schema_to_dshape (StructType fields)
  = bind (mapM field_to_dshape fields) (fun fields' =>
    bind (mkRecord fields') (fun r => Ok (dshape r))).
Proof. reflexivity. Qed.

Lemma storable_Record (fields : list (string * Mono)) :
  storable (Record fields)
  = distinct (map fst fields) && forallb (fun f => field_ok (snd f)) fields.
Proof.
  reflexivity.
Qed.

Lemma storable_DataShape (ps : list Mono) :
  storable (DataShape Var ps) = dims_ok ps.
Proof.
  reflexivity.
Qed.

Lemma storable_not_Option (t : Mono) :
  storable t = true -> is_Option t = false.
Proof. destruct t; try reflexivity. intros H. discriminate H. Qed.

Lemma storable_deoption (t : Mono) : storable t = true -> deoption t = t.
Proof.
  destruct t as [| | | | | | | | | |ty|fs|ds|p ps]; try reflexivity;
    try (intros H; discriminate H).
  destruct p; try (intros H; discriminate H). reflexivity.
Qed.

Lemma storable_launder (t : Mono) : storable t = true -> launder t = t.
Proof.
  destruct t as [| | | | | | | | | |ty|fs|ds|p ps]; try reflexivity.
  destruct ps; [|reflexivity].
  destruct p; intros H; discriminate H.
Qed.

Lemma storable_launder_back (t : Mono) :
  storable t = true -> launder (back_shape t) = t.
Proof.
  destruct t as [| | | | | | | | | |ty|fs|ds|p ps]; try reflexivity.
  apply storable_launder.
Qed.

Lemma field_ok_storable (typ : Mono) :
  is_Option typ = false -> field_ok typ = storable typ.
Proof. destruct typ; try reflexivity. intros H. discriminate H. Qed.

Lemma elem_ok_storable (e : Mono) :
  elem_ok e = true -> is_Option e = false -> storable e = true.
Proof.
  destruct e; cbn [elem_ok is_Option]; intros H1 H2;
    first [exact H1 | discriminate H1 | discriminate H2].
Qed.

Lemma elem_ok_launder (e : Mono) : elem_ok e = true -> launder e = e.
Proof. destruct e; try reflexivity. intros H. discriminate H. Qed.

Lemma dims_ok_launder (l : list Mono) :
  dims_ok l = true -> map launder l = l.
Proof.
  induction l as [|e l IH]; [reflexivity|].
  destruct l as [|e' l].
  - cbn [dims_ok map]. intros H.
    rewrite elem_ok_launder; [reflexivity | destruct e; exact H].
  - intros H. cbn [map]. cbn [map] in IH.
    destruct e; try discriminate H. rewrite IH by exact H. reflexivity.
Qed.

Lemma exact_leaf_roundtrip (t : Mono) :
  looked_up t = true ->
  existsb (Mono_eqb t) exact_leaves = true ->
  dshape_to_schema t <> Raise (NotImplementedError None) /\
  exists s, dshape_to_schema t = Ok s /\ schema_to_dshape s = Ok t.
Proof.
  intros Hl H.
  destruct t; try discriminate Hl; try discriminate H;
    try (split; [intros E; discriminate E | eexists; split; reflexivity]).
  cbn in H.
  repeat match type of H with
         | (String.eqb ?a ?b || _)%bool = true =>
             destruct (String.eqb_spec a b) as [->|_];
             [split; [intros E; discriminate E
                     | eexists; split; reflexivity]
             | cbn [orb] in H]
         end.
  discriminate H.
Qed.

Lemma zip_fst_snd {A B : Type} (l : list (A * B)) :
  zip (map fst l) (map snd l) = l.
Proof.
  induction l as [|[a b] l IH]; cbn; [reflexivity | now rewrite IH].
Qed.

Section step.
Variable n : nat.
Hypothesis IH : forall t : Mono,
    size t < n -> storable t = true ->
    exists s, dshape_to_schema t = Ok s /\
              schema_to_dshape s = Ok (back_shape t).

Lemma field_roundtrip (name : string) (typ : Mono) :
  size typ < n -> field_ok typ = true ->
  exists s typ',
    dshape_to_schema (deoption typ) = Ok s /\
    field_to_dshape (mkStructField name s (is_Option typ)) = Ok (name, typ') /\
    launder typ' = typ.
Proof.
  intros Hn Hok.
  destruct (is_Option typ) eqn:Ho.
  - destruct typ as [| | | | | | | | | |x| | |]; try discriminate Ho.
    cbn [field_ok] in Hok. cbn [size] in Hn.
    destruct (IH x) as [s [Hs Hb]]; [lia | exact Hok|].
    exists s, (mkOption (back_shape x)).
    split; [exact Hs|]. unfold field_to_dshape.
    cbn [nullable dataType pyspark.name]. rewrite Hb. cbn [bind].
    split; [reflexivity|].
    unfold mkOption. rewrite storable_launder_back by exact Hok.
    reflexivity.
  - rewrite field_ok_storable in Hok by exact Ho.
    rewrite storable_deoption by exact Hok.
    destruct (IH typ) as [s [Hs Hb]]; [exact Hn | exact Hok|].
    exists s, (back_shape typ).
    split; [exact Hs|]. unfold field_to_dshape.
    cbn [nullable dataType pyspark.name]. rewrite Hb. cbn [bind].
    split; [reflexivity|].
    apply storable_launder_back. exact Hok.
Qed.

Lemma fields_roundtrip (fields : list (string * Mono)) :
  field_sizes fields < n ->
  forallb (fun f => field_ok (snd f)) fields = true ->
  exists fs fields',
    mapM (fun field =>
            bind (dshape_to_schema (deoption (snd field))) (fun s =>
            Ok (mkStructField (fst field) s (is_Option (snd field)))))
         fields = Ok fs /\
    mapM field_to_dshape fs = Ok fields' /\
    map fst fields' = map fst fields /\
    map (fun f => launder (snd f)) fields' = map snd fields.
Proof.
  induction fields as [|[name typ] fields IHf]; intros Hn Hok.
  - exists [], []. repeat split.
  - cbn [field_sizes] in Hn. cbn [forallb snd] in Hok.
    apply andb_true_iff in Hok as [Hok1 Hok2].
    destruct (field_roundtrip name typ) as [s [typ' [Hs [Hb Hl]]]];
      [lia | exact Hok1|].
    destruct IHf as [fs [fields' [Hfs [Hfields [Hnames Htypes]]]]];
      [lia | exact Hok2|].
    exists (mkStructField name s (is_Option typ) :: fs),
           ((name, typ') :: fields').
    cbn [mapM fst snd]. rewrite Hs. cbn [bind]. rewrite Hfs.
    rewrite Hb, Hfields. cbn [map fst snd].
    rewrite Hnames, Htypes, Hl. repeat split.
Qed.
End step.

(** The schema of a storable shape is converted back to that shape, a
    record inside the [DataShape] that [datashape.dshape] builds. *)
Lemma storable_roundtrip (n : nat) :
  forall t : Mono,
    size t < n -> storable t = true ->
    exists s, dshape_to_schema t = Ok s /\
              schema_to_dshape s = Ok (back_shape t).
Proof.
  induction n as [|n IH]; intros t Hn Hs; [lia|].
  destruct t as [c| | | | | | |u| | |ty|fields|ds|p ps];
    try discriminate Hs;
    try (apply exact_leaf_roundtrip; [reflexivity | exact Hs]).
  - rewrite storable_Record in Hs.
    apply andb_true_iff in Hs as [Hd Hf].
    rewrite size_Record in Hn.
    destruct (fields_roundtrip n IH fields)
      as [fs [fields' [Hfs [Hfields [Hnames Htypes]]]]];
      [lia | exact Hf|].
    exists (StructType fs). split.
    + rewrite dshape_to_schema_Record, Hfs. reflexivity.
    + rewrite schema_to_dshape_StructType, Hfields. cbn [bind].
      unfold mkRecord. rewrite Hnames, Hd, Htypes, zip_fst_snd.
      reflexivity.
  - destruct p; try discriminate Hs.
    rewrite storable_DataShape in Hs.
    rewrite size_DataShape in Hn.
    destruct ps as [|e ps]; [discriminate Hs|].
    rewrite dshape_to_schema_dimension by reflexivity.
    rewrite subshape0_cons. cbn [bind].
    destruct ps as [|e' ps].
    + assert (He : elem_ok e = true) by (destruct e; exact Hs).
      rewrite element_measure, elem_ok_launder by exact He.
      cbn [sizes] in Hn.
      destruct (is_Option e) eqn:Ho.
      * destruct e as [| | | | | | | | | |x| | |]; try discriminate Ho.
        cbn [elem_ok] in He. cbn [deoption]. cbn [size] in Hn.
        destruct (IH x) as [s [Hx Hb]]; [lia | exact He|].
        exists (ArrayType s true). rewrite Hx. split; [reflexivity|].
        rewrite schema_to_dshape_ArrayType, Hb. cbn [bind].
        unfold mkOption. rewrite storable_launder_back by exact He.
        reflexivity.
      * pose proof (elem_ok_storable e He Ho) as Hse.
        rewrite storable_deoption by exact Hse.
        destruct (IH e) as [s [Hx Hb]]; [lia | exact Hse|].
        exists (ArrayType s false). rewrite Hx. split; [reflexivity|].
        rewrite schema_to_dshape_ArrayType, Hb. cbn [bind].
        destruct e; try discriminate Ho; try discriminate He; reflexivity.
    + destruct e; try discriminate Hs.
      assert (Hd : dims_ok (e' :: ps) = true) by exact Hs.
      rewrite element_dimensions. unfold mkDataShape.
      rewrite (dims_ok_launder (e' :: ps) Hd). cbn [launder].
      cbn [deoption isdimension negb is_Option].
      destruct (IH (DataShape Var (e' :: ps))) as [s [Hx Hb]].
      * rewrite size_DataShape. cbn [sizes size] in *. lia.
      * rewrite storable_DataShape. exact Hd.
      * exists (ArrayType s false). rewrite Hx. split; [reflexivity|].
        rewrite schema_to_dshape_ArrayType, Hb. cbn [bind back_shape].
        cbn [mul var]. unfold mkDataShape.
        change (map launder (Var :: e' :: ps))
          with (Var :: map launder (e' :: ps)).
        rewrite (dims_ok_launder (e' :: ps) Hd). reflexivity.
Qed.

Lemma Mono_eqb_refl (a : Mono) : Mono_eqb a a = true.
Proof.
  remember (size a) as n eqn:Hn.
  assert (H : size a <= n) by lia. clear Hn. revert a H.
  induction n as [|n IH]; intros a H;
    [pose proof (size_pos a); lia|].
  destruct a as [c| | | | | | |u| |z|ty|fields|ds|p ps];
    cbn [Mono_eqb]; try reflexivity.
  - apply String.eqb_refl.
  - apply String.eqb_refl.
  - apply Z.eqb_refl.
  - apply IH. cbn [size] in H. lia.
  - rewrite size_Record in H.
    assert (Hf : field_sizes fields <= n) by lia. clear H.
    induction fields as [|[name t] fields IHf]; [reflexivity|].
    cbn [field_sizes] in Hf.
    rewrite String.eqb_refl, IH by lia. cbn [andb]. apply IHf. lia.
  - assert (Hf : sizes ds <= n) by (cbn [size] in H; fold (sizes ds) in H; lia).
    clear H.
    induction ds as [|d ds IHd]; [reflexivity|].
    cbn [sizes] in Hf. rewrite IH by lia. cbn [andb]. apply IHd. lia.
  - rewrite size_DataShape in H. rewrite IH by lia. cbn [andb].
    assert (Hf : sizes ps <= n) by lia. clear H.
    induction ps as [|d ds IHd]; [reflexivity|].
    cbn [sizes] in Hf. rewrite IH by lia. cbn [andb]. apply IHd. lia.
Qed.

Lemma Mono_eqb_sound (n : nat) :
  forall a b : Mono, size a <= n -> Mono_eqb a b = true -> a = b.
Proof.
  induction n as [|n IH]; intros a b Hs H;
    [pose proof (size_pos a); lia|].
  destruct a as [c| | | | | | |u| |z|ty|fs|ds|p ps],
           b as [c'| | | | | | |u'| |z'|ty'|gs|es|q qs];
    cbn [Mono_eqb] in H; try discriminate H; try reflexivity.
  - apply String.eqb_eq in H. now subst.
  - apply String.eqb_eq in H. now subst.
  - apply Z.eqb_eq in H. now subst.
  - f_equal. apply IH; [cbn [size] in Hs; lia | exact H].
  - f_equal. rewrite size_Record in Hs.
    assert (Hf : field_sizes fs <= n) by lia. clear Hs.
    revert gs H. induction fs as [|[name t] fs IHf]; intros [|[name' t'] gs] H;
      try discriminate H; [reflexivity|].
    cbn [field_sizes] in Hf.
    apply andb_true_iff in H as [H H3]. apply andb_true_iff in H as [H1 H2].
    apply String.eqb_eq in H1. subst name'.
    rewrite (IH t t') by (lia || exact H2).
    rewrite (IHf ltac:(lia) gs H3). reflexivity.
  - f_equal.
    assert (Hf : sizes ds <= n) by (cbn [size] in Hs; fold (sizes ds) in Hs; lia).
    clear Hs.
    revert es H. induction ds as [|d ds IHd]; intros [|e es] H;
      try discriminate H; [reflexivity|].
    cbn [sizes] in Hf. apply andb_true_iff in H as [H1 H2].
    rewrite (IH d e) by (lia || exact H1).
    rewrite (IHd ltac:(lia) es H2). reflexivity.
  - rewrite size_DataShape in Hs.
    apply andb_true_iff in H as [H0 H].
    rewrite (IH p q) by (lia || exact H0). f_equal.
    assert (Hf : sizes ps <= n) by lia. clear Hs.
    revert qs H. induction ps as [|d ds IHd]; intros [|e es] H;
      try discriminate H; [reflexivity|].
    cbn [sizes] in Hf. apply andb_true_iff in H as [H1 H2].
    rewrite (IH d e) by (lia || exact H1).
    rewrite (IHd ltac:(lia) es H2). reflexivity.
Qed.

(** [Mono_eqb] decides equality of shapes. *)
Lemma Mono_eqb_eq (a b : Mono) : Mono_eqb a b = true <-> a = b.
Proof.
  split.
  - apply (Mono_eqb_sound (size a)). lia.
  - intros <-. apply Mono_eqb_refl.
Qed.

End roundtrip_facts.

Section roundtrip_claim.
Import datashape py pyspark sparksql shapes.

(** The struct of a record keeps the names, in order, and marks as
    nullable the fields whose type is an [Option]. *)
Lemma record_fields_kept (fields : list (string * Mono))
      (fs : list (StructField DataType)) :
  dshape_to_schema (Record fields) = Ok (StructType fs) ->
  map name fs = map fst fields /\
  map nullable fs = map (fun f => is_Option (snd f)) fields.
Proof.
  rewrite dshape_to_schema_Record.
  revert fs. induction fields as [|[n t] fields IH]; intros fs H.
  - cbn in H. injection H as <-. split; reflexivity.
  - cbn [mapM] in H. cbn [fst snd] in H.
    destruct (dshape_to_schema (deoption t)) as [s|e];
      cbn [bind] in H; [|discriminate H].
    destruct (mapM _ fields) as [fs'|e] eqn:E;
      cbn [bind] in H; [|discriminate H].
    injection H as <-.
    destruct (IH fs') as [H1 H2]; [reflexivity|].
    cbn [map name nullable fst snd]. rewrite H1, H2. split; reflexivity.
Qed.

(** C1, as stated, fails.  The record with one [int8] field is the shape
    of a schema and has no schema itself; the record with one [time_]
    field has a schema, whose shape is another record. *)
Lemma roundtrip_fails_on_int8_and_time :
  (shape_of_a_schema (Record [("a", int8)]) /\
   roundtrip (Record [("a", int8)]) = Raise (NotImplementedError None) /\
   ~ roundtrips (Record [("a", int8)])) /\
  (has_a_schema (Record [("t", time_)]) /\
   roundtrip (Record [("t", time_)])
   = Ok (DataShape (Record [("t", datetime_)]) []) /\
   ~ roundtrips (Record [("t", time_)])).
Proof.
  split; split.
  - exists (StructType [mkStructField "a" ByteType false]). reflexivity.
  - split; [reflexivity|].
    intros [ds' [H _]]. vm_compute in H. discriminate H.
  - exists (StructType [mkStructField "t" TimestampType false]).
    reflexivity.
  - split; [reflexivity|].
    intros [ds' [H E]]. vm_compute in H. injection H as <-.
    vm_compute in E. discriminate E.
Qed.

(** C1, amended.  For a record built from the unit measures both tables
    hold and map back to themselves ([int16], [int32], [int64],
    [float32], [float64], [date_], [datetime_], [bool_], [string_]),
    records with distinct names, [var] dimensions, and one optional layer
    on a field or on an array element, the schema has the record's names
    in order and is nullable where the field is an [Option], and its
    shape is the one-parameter [DataShape] of that record: the record is
    its measure, it is not [==] to the bare record, and it is itself
    given back unchanged by the round trip. *)
Theorem record_roundtrip (fields : list (string * Mono)) :
  storable (Record fields) = true ->
  exists fs,
    dshape_to_schema (Record fields) = Ok (StructType fs) /\
    map name fs = map fst fields /\
    map nullable fs = map (fun f => is_Option (snd f)) fields /\
    schema_to_dshape (StructType fs) = Ok (DataShape (Record fields) []) /\
    roundtrip (Record fields) = Ok (DataShape (Record fields) []) /\
    measure (DataShape (Record fields) []) = Record fields /\
    Mono_eq (DataShape (Record fields) []) (Record fields) = false /\
    roundtrip (DataShape (Record fields) [])
    = Ok (DataShape (Record fields) []).
Proof.
  intros Hs.
  destruct (storable_roundtrip (S (size (Record fields))) (Record fields))
    as [s [Hf Hb]]; [lia | exact Hs|].
  assert (Hst : exists fs, s = StructType fs).
  { rewrite dshape_to_schema_Record in Hf.
    destruct (mapM _ fields) as [fs|e]; cbn [bind] in Hf;
      [|discriminate Hf].
    injection Hf as <-. now exists fs. }
  destruct Hst as [fs ->].
  exists fs.
  destruct (record_fields_kept fields fs Hf) as [H1 H2].
  split; [exact Hf|]. split; [exact H1|]. split; [exact H2|].
  split; [exact Hb|]. split; [|split; [reflexivity|split; [reflexivity|]]].
  - unfold roundtrip. rewrite Hf. exact Hb.
  - unfold roundtrip. rewrite dshape_to_schema_wrapper by reflexivity.
    rewrite Hf. exact Hb.
Qed.

Lemma record_roundtrip_witness :
  storable (Record [("name", string_); ("amount", Option int32)]) = true /\
  roundtrip (Record [("name", string_); ("amount", Option int32)])
  = Ok (DataShape (Record [("name", string_); ("amount", Option int32)]) []).
Proof.
  assert (H : storable (Record [("name", string_); ("amount", Option int32)])
              = true) by reflexivity.
  split; [exact H|].
  destruct (record_roundtrip _ H) as [fs [_ [_ [_ [_ [Hr _]]]]]].
  exact Hr.
Defined.

Example scenario_struct :
  dshape_to_schema (Record [("name", string_); ("amount", Option int32)])
  = Ok (StructType [mkStructField "name" StringType false;
                    mkStructField "amount" IntegerType true]).
Proof. reflexivity. Qed.

Example nested_arrays_roundtrip :
  roundtrip (Record [("xs", DataShape Var [Var; Option int64]);
                     ("r", Option (Record [("d", date_)]))])
  = Ok (DataShape
          (Record [("xs", DataShape Var [Var; Option int64]);
                   ("r", Option (Record [("d", date_)]))]) []).
Proof. reflexivity. Qed.

Example fixed_dimension_becomes_var :
  roundtrip (Record [("xs", DataShape (Fixed 5) [int32])])
  = Ok (DataShape (Record [("xs", DataShape Var [int32])]) []).
Proof. reflexivity. Qed.
End roundtrip_claim.


(* ================================================================== *)
(** ** The round trip schema, shape, schema *)
(* ================================================================== *)

Section bytes_facts.
Import datashape py pyspark sparksql shapes.

Lemma not_singleton_launder (x : Mono) :
  is_singleton x = false -> launder x = x.
Proof.
  destruct x as [| | | | | | | | | | | | |p [|q qs]]; try reflexivity.
  intros H. discriminate H.
Qed.

Lemma no_singleton_launder (l : list Mono) :
  forallb (fun x => negb (is_singleton x)) l = true -> map launder l = l.
Proof.
  induction l as [|x l IH]; [reflexivity|].
  cbn [forallb map]. intros H. apply andb_true_iff in H as [Hx Hl].
  rewrite not_singleton_launder, IH; [reflexivity | exact Hl|].
  now destruct (is_singleton x).
Qed.

Lemma mkRecord_Ok (fields : list (string * Mono)) (r : Mono) :
  mkRecord fields = Ok r ->
  r = Record (map (fun f => (fst f, launder (snd f))) fields).
Proof.
  unfold mkRecord. destruct (distinct (map fst fields)); intros H;
    [|discriminate H].
  injection H as <-. f_equal.
  induction fields as [|[n t] fields IH]; [reflexivity|].
  cbn [map zip fst snd]. now rewrite IH.
Qed.

Lemma output_form_inv (t : Mono) :
  output_form t = true ->
  is_unit t = true \/
  (exists fields, t = DataShape (Record fields) []) \/
  (exists q qs, t = DataShape Var (q :: qs) /\
                forallb (fun x => negb (is_singleton x)) (q :: qs) = true).
Proof.
  destruct t as [| | | | | | | | | | | | |p ps];
    try (intros H; discriminate H); try (intros _; left; reflexivity).
  destruct p, ps as [|q qs]; intros H; cbn in H; try discriminate H.
  - right; right. exists q, qs. split; [reflexivity | exact H].
  - right; left. eexists; reflexivity.
Qed.

Lemma mul_var_array (q : Mono) (qs : list Mono) :
  forallb (fun x => negb (is_singleton x)) (q :: qs) = true ->
  mul var (DataShape Var (q :: qs)) = DataShape Var (Var :: q :: qs) /\
  mkDataShape Var (q :: qs) = DataShape Var (q :: qs).
Proof.
  intros H. cbn [mul var]. unfold mkDataShape.
  change (map launder (Var :: q :: qs)) with (Var :: map launder (q :: qs)).
  rewrite (no_singleton_launder (q :: qs)) by exact H.
  split; reflexivity.
Qed.

(** The shapes [schema_to_dshape] returns have one of three forms. *)
Lemma schema_to_dshape_form (schema : DataType) :
  forall t, schema_to_dshape schema = Ok t -> output_form t = true.
Proof.
  induction schema as [| | | | | |p s| | | | | | |e IH n|k IHk v IHv n|fields];
    intros t H; try (injection H as <-; reflexivity); try discriminate H.
  - rewrite schema_to_dshape_ArrayType in H.
    destruct (schema_to_dshape e) as [te|err]; cbn [bind] in H;
      [|discriminate H].
    injection H as <-. specialize (IH te eq_refl).
    destruct n; [reflexivity|].
    destruct (output_form_inv te IH) as [Hu|[[fs ->]|[q [qs [-> Hq]]]]].
    + destruct te; try discriminate Hu; reflexivity.
    + reflexivity.
    + rewrite (proj1 (mul_var_array q qs Hq)).
      cbn [output_form forallb is_singleton negb andb]. exact Hq.
  - rewrite schema_to_dshape_StructType in H.
    destruct (mapM field_to_dshape fields) as [fields'|err];
      cbn [bind] in H; [|discriminate H].
    destruct (mkRecord fields') as [r|err] eqn:E; cbn [bind] in H;
      [|discriminate H].
    apply mkRecord_Ok in E. subst r. injection H as <-. reflexivity.
Qed.

Lemma output_form_launder (t : Mono) :
  output_form t = true ->
  dshape_to_schema (launder t) = dshape_to_schema t /\
  deoption (launder t) = launder t.
Proof.
  intros H.
  destruct (output_form_inv t H) as [Hu|[[fs ->]|[q [qs [-> Hq]]]]].
  - destruct t; try discriminate Hu; split; reflexivity.
  - cbn [launder]. split; [|reflexivity].
    symmetry. apply dshape_to_schema_wrapper. reflexivity.
  - split; reflexivity.
Qed.

(** The schema of an array shape that [schema_to_dshape] has built. *)
Lemma dshape_to_schema_mul_var (te : Mono) (containsNull : bool) :
  output_form te = true ->
  dshape_to_schema (mul var (if containsNull then mkOption te else te))
  = bind (dshape_to_schema te) (fun s => Ok (ArrayType s containsNull)).
Proof.
  intros H. destruct (output_form_launder te H) as [Hl Hd].
  destruct containsNull.
  - change (mul var (mkOption te)) with (DataShape Var [Option (launder te)]).
    rewrite dshape_to_schema_dimension by reflexivity.
    rewrite subshape0_cons. cbn [bind]. rewrite element_measure.
    cbn [launder deoption is_Option]. rewrite Hl. reflexivity.
  - destruct (output_form_inv te H) as [Hu|[[fs ->]|[q [qs [-> Hq]]]]].
    + destruct te; try discriminate Hu;
        cbn [mul var]; unfold mkDataShape; cbn [launder map];
        rewrite dshape_to_schema_dimension by reflexivity; reflexivity.
    + change (mul var (DataShape (Record fs) []))
        with (DataShape Var [Record fs]).
      rewrite dshape_to_schema_dimension by reflexivity.
      rewrite subshape0_cons. cbn [bind]. rewrite element_measure.
      cbn [launder deoption is_Option]. rewrite <- Hl. reflexivity.
    + destruct (mul_var_array q qs Hq) as [-> Hmk].
      rewrite dshape_to_schema_dimension by reflexivity.
      rewrite subshape0_cons. cbn [bind].
      rewrite element_dimensions, Hmk. reflexivity.
Qed.

(** The schema of a record field that [schema_to_dshape] has built. *)
Lemma field_to_schema_back (name : string) (te : Mono) (nullable : bool) :
  output_form te = true ->
  field_to_schema (name, launder (if nullable then mkOption te else te))
  = bind (dshape_to_schema te) (fun s => Ok (mkStructField name s nullable)).
Proof.
  intros H. destruct (output_form_launder te H) as [Hl Hd].
  unfold field_to_schema. cbn [fst snd].
  destruct nullable.
  - cbn [mkOption launder deoption is_Option]. rewrite Hl. reflexivity.
  - rewrite Hd, Hl.
    destruct (output_form_inv te H) as [Hu|[[fs ->]|[q [qs [-> Hq]]]]];
      [destruct te; try discriminate Hu| |]; reflexivity.
Qed.

Lemma mapM_raise {A B : Type} (f : A -> result B) (l : list A) :
  existsb (fun x => is_Raise (f x)) l = true -> is_Raise (mapM f l) = true.
Proof.
  induction l as [|x l IH]; cbn [existsb mapM]; intros H; [discriminate H|].
  destruct (f x) as [y|e]; [|reflexivity].
  cbn [is_Raise orb] in H. specialize (IH H).
  destruct (mapM f l); [discriminate IH | reflexivity].
Qed.

Lemma holds_bytes_raises (schema : DataType) :
  holds_bytes schema = true ->
  forall t, schema_to_dshape schema = Ok t ->
            is_Raise (dshape_to_schema t) = true.
Proof.
  induction schema as [schema Ha|e n IH|k v n IHk IHv|fields IH]
    using DataType_fields_ind; intros Hb t H.
  - destruct schema; try discriminate Ha; try discriminate Hb;
      vm_compute in H; injection H as <-; reflexivity.
  - cbn [holds_bytes] in Hb. rewrite schema_to_dshape_ArrayType in H.
    destruct (schema_to_dshape e) as [te|err] eqn:E; cbn [bind] in H;
      [|discriminate H].
    injection H as <-.
    rewrite dshape_to_schema_mul_var by (apply (schema_to_dshape_form e), E).
    specialize (IH Hb te eq_refl).
    destruct (dshape_to_schema te); [discriminate IH | reflexivity].
  - discriminate Hb.
  - cbn [holds_bytes] in Hb. rewrite schema_to_dshape_StructType in H.
    destruct (mapM field_to_dshape fields) as [fields'|err] eqn:E;
      cbn [bind] in H; [|discriminate H].
    destruct (mkRecord fields') as [r|err] eqn:Er; cbn [bind] in H;
      [|discriminate H].
    apply mkRecord_Ok in Er. subst r. injection H as <-.
    cbn [dshape]. unfold mkDataShape. cbn [launder map].
    rewrite dshape_to_schema_wrapper by reflexivity.
    rewrite dshape_to_schema_Record.
    change (fun field : string * Mono =>
              bind (dshape_to_schema (deoption (snd field))) (fun s =>
              Ok (mkStructField (fst field) s (is_Option (snd field)))))
      with field_to_schema.
    assert (Hr : is_Raise
                   (mapM field_to_schema
                      (map (fun f => (fst f, launder (snd f))) fields')) = true).
    { apply mapM_raise.
      revert fields' E Hb.
      induction IH as [|f fields Hf _ IHfields]; intros fields' E Hb;
        [discriminate Hb|].
      cbn [mapM] in E. cbn [existsb] in Hb.
      destruct (field_to_dshape f) as [y|err] eqn:Ey; [|discriminate E].
      destruct (mapM field_to_dshape fields) as [ys|err] eqn:Eys;
        [|discriminate E].
      injection E as <-. cbn [map existsb].
      destruct (holds_bytes (dataType f)) eqn:Hbf.
      - unfold field_to_dshape in Ey.
        assert (Hy : exists te, schema_to_dshape (dataType f) = Ok te /\
                       y = (name f, if nullable f then mkOption te else te)).
        { destruct (schema_to_dshape (dataType f)) as [te|err];
            [|destruct (nullable f); discriminate Ey].
          exists te. split; [reflexivity|].
          destruct (nullable f); cbn [bind] in Ey; injection Ey as <-;
            reflexivity. }
        destruct Hy as [te [Hte ->]]. cbn [fst snd].
        rewrite field_to_schema_back
          by (apply (schema_to_dshape_form (dataType f)), Hte).
        specialize (Hf eq_refl te Hte).
        destruct (dshape_to_schema te); [discriminate Hf | reflexivity].
      - cbn [orb] in Hb. rewrite (IHfields ys eq_refl Hb).
        apply orb_true_r. }
    destruct (mapM field_to_schema _); [discriminate Hr | reflexivity].
Qed.

(** C10.  [schema_to_dshape] gives [int8] for [ByteType] and [bytes_] for
    [BinaryType]; [dshape_to_sparksql] holds neither, and
    [dshape_to_schema] raises [NotImplementedError] on both; so the round
    trip of the two leaves raises, and so does the round trip of every
    schema that holds one of them. *)
Theorem byte_binary_roundtrip_fails :
  schema_to_dshape ByteType = Ok int8 /\
  schema_to_dshape BinaryType = Ok bytes_ /\
  contains Mono_eq dshape_to_sparksql int8 = false /\
  contains Mono_eq dshape_to_sparksql bytes_ = false /\
  dshape_to_schema int8 = Raise (NotImplementedError None) /\
  dshape_to_schema bytes_ = Raise (NotImplementedError None) /\
  roundtrip_schema ByteType = Raise (NotImplementedError None) /\
  roundtrip_schema BinaryType = Raise (NotImplementedError None) /\
  (forall schema : DataType,
     holds_bytes schema = true -> is_Raise (roundtrip_schema schema) = true).
Proof.
  repeat (split; [reflexivity|]).
  intros schema Hb. unfold roundtrip_schema.
  destruct (schema_to_dshape schema) as [t|e] eqn:E; [|reflexivity].
  cbn [bind]. exact (holds_bytes_raises schema Hb t E).
Qed.

Lemma byte_binary_roundtrip_fails_witness :
  holds_bytes
    (StructType [mkStructField "id" LongType false;
                 mkStructField "raw" (ArrayType BinaryType true) true]) = true /\
  is_Raise
    (roundtrip_schema
       (StructType [mkStructField "id" LongType false;
                    mkStructField "raw" (ArrayType BinaryType true) true]))
  = true.
Proof.
  split; [reflexivity|].
  apply byte_binary_roundtrip_fails. reflexivity.
Defined.
End bytes_facts.


(* ================================================================== *)
(** ** Which schemas are read, and which come back *)
(* ================================================================== *)

Section schema_facts.
Import datashape py pyspark sparksql shapes schemas.

Lemma field_to_dshape_Ok (f : StructField DataType) (y : string * Mono) :
  field_to_dshape f = Ok y ->
  exists te, schema_to_dshape (dataType f) = Ok te /\
             y = (name f, if nullable f then mkOption te else te).
Proof.
  unfold field_to_dshape. intros H.
  destruct (schema_to_dshape (dataType f)) as [te|err];
    [|destruct (nullable f); discriminate H].
  exists te. split; [reflexivity|].
  destruct (nullable f); cbn [bind] in H; injection H as <-; reflexivity.
Qed.

Lemma field_to_dshape_Raise (f : StructField DataType) :
  is_Raise (field_to_dshape f) = is_Raise (schema_to_dshape (dataType f)).
Proof.
  unfold field_to_dshape.
  destruct (nullable f), (schema_to_dshape (dataType f)); reflexivity.
Qed.

Lemma fields_to_dshape_names (fields : list (StructField DataType)) :
  forall fields', mapM field_to_dshape fields = Ok fields' ->
                  map fst fields' = map name fields.
Proof.
  induction fields as [|f fields IH]; intros fields' H.
  - injection H as <-. reflexivity.
  - cbn [mapM] in H.
    destruct (field_to_dshape f) as [y|err] eqn:Ey; [|discriminate H].
    destruct (mapM field_to_dshape fields) as [ys|err]; [|discriminate H].
    injection H as <-.
    apply field_to_dshape_Ok in Ey as [te [_ ->]].
    cbn [map fst]. now rewrite (IH ys eq_refl).
Qed.

Lemma mapM_all_ok {A B : Type} (f : A -> result B) (l : list A) :
  is_Raise (mapM f l) = existsb (fun x => is_Raise (f x)) l.
Proof.
  induction l as [|x l IH]; cbn [mapM existsb]; [reflexivity|].
  destruct (f x) as [y|e]; [|reflexivity].
  cbn [is_Raise orb]. rewrite <- IH. destruct (mapM f l); reflexivity.
Qed.

Lemma schema_to_dshape_Raise (schema : DataType) :
  is_Raise (schema_to_dshape schema) = negb (readable schema).
Proof.
  induction schema as [schema Ha|e n IH|k v n IHk IHv|fields IH]
    using DataType_fields_ind.
  - destruct schema; try discriminate Ha; reflexivity.
  - rewrite schema_to_dshape_ArrayType.
    change (readable (ArrayType e n)) with (readable e). rewrite <- IH.
    destruct (schema_to_dshape e); reflexivity.
  - reflexivity.
  - rewrite schema_to_dshape_StructType.
    change (readable (StructType fields))
      with (distinct (map name fields) &&
            forallb (fun field => readable (dataType field)) fields).
    assert (Hm : is_Raise (mapM field_to_dshape fields)
                 = negb (forallb (fun field => readable (dataType field)) fields)).
    { rewrite mapM_all_ok. clear -IH.
      induction IH as [|f fields Hf _ IHf]; [reflexivity|].
      cbn [existsb forallb]. rewrite field_to_dshape_Raise, Hf, IHf.
      now rewrite negb_andb. }
    destruct (mapM field_to_dshape fields) as [fields'|err] eqn:E;
      cbn [bind is_Raise] in *.
    + apply (f_equal negb) in Hm. rewrite negb_involutive in Hm.
      cbn [negb] in Hm. rewrite <- Hm, andb_true_r.
      unfold mkRecord. rewrite (fields_to_dshape_names fields fields' E).
      destruct (distinct (map name fields)); reflexivity.
    + apply (f_equal negb) in Hm. rewrite negb_involutive in Hm.
      cbn [negb] in Hm. rewrite <- Hm, andb_false_r. reflexivity.
Qed.

(** X1.  [schema_to_dshape] returns a shape exactly on the schemas built
    from the eleven scalar types of [sparksql_to_dshape] by arrays and by
    structs whose field names are distinct, and the shape is then a unit
    measure, a record in a one-parameter [DataShape], or a [DataShape]
    that starts with [var]; on every other schema it raises. *)
Theorem schema_to_dshape_readable (schema : DataType) :
  (readable schema = true ->
   exists t, schema_to_dshape schema = Ok t /\ output_form t = true) /\
  (readable schema = false -> exists e, schema_to_dshape schema = Raise e).
Proof.
  pose proof (schema_to_dshape_Raise schema) as H.
  destruct (schema_to_dshape schema) as [t|e] eqn:E; cbn [is_Raise] in H.
  - split; intros R; rewrite R in H; [|discriminate H].
    exists t. split; [reflexivity|].
    exact (schema_to_dshape_form schema t E).
  - split; intros R; rewrite R in H; [discriminate H|].
    exists e. reflexivity.
Qed.

Lemma schema_to_dshape_readable_witness :
  readable (ArrayType (StructType [mkStructField "b" BinaryType true]) false)
  = true /\
  exists t,
    schema_to_dshape
      (ArrayType (StructType [mkStructField "b" BinaryType true]) false) = Ok t /\
    output_form t = true.
Proof.
  split; [reflexivity|].
  apply (proj1 (schema_to_dshape_readable
                  (ArrayType (StructType [mkStructField "b" BinaryType true])
                             false))).
  reflexivity.
Defined.

Lemma StructField_eta (f : StructField DataType) :
  mkStructField (name f) (dataType f) (nullable f) = f.
Proof. destruct f; reflexivity. Qed.

(** What [dshape_to_schema] gives on the shape of a schema. *)
Lemma schema_back (schema : DataType) :
  forall t, schema_to_dshape schema = Ok t ->
    (forall schema', dshape_to_schema t = Ok schema' -> schema' = schema) /\
    (plain schema = true -> dshape_to_schema t = Ok schema).
Proof.
  induction schema as [schema Ha|e n IH|k v n IHk IHv|fields IH]
    using DataType_fields_ind; intros t H.
  - destruct schema; try discriminate Ha; vm_compute in H;
      try discriminate H; injection H as <-;
      (split; [intros schema' E; vm_compute in E;
               first [discriminate E | injection E as <-; reflexivity]
              | intros P; first [discriminate P | reflexivity]]).
  - rewrite schema_to_dshape_ArrayType in H.
    destruct (schema_to_dshape e) as [te|err] eqn:E; cbn [bind] in H;
      [|discriminate H].
    injection H as <-.
    rewrite dshape_to_schema_mul_var by (apply (schema_to_dshape_form e), E).
    destruct (IH te eq_refl) as [IH1 IH2]. split.
    + intros schema' H.
      destruct (dshape_to_schema te) as [s|err]; [|discriminate H].
      injection H as <-. now rewrite (IH1 s eq_refl).
    + intros P. change (plain (ArrayType e n)) with (plain e) in P.
      rewrite (IH2 P). reflexivity.
  - discriminate H.
  - rewrite schema_to_dshape_StructType in H.
    destruct (mapM field_to_dshape fields) as [fields'|err] eqn:E;
      cbn [bind] in H; [|discriminate H].
    destruct (mkRecord fields') as [r|err] eqn:Er; cbn [bind] in H;
      [|discriminate H].
    apply mkRecord_Ok in Er. subst r. injection H as <-.
    cbn [dshape]. unfold mkDataShape. cbn [launder map].
    rewrite dshape_to_schema_wrapper by reflexivity.
    rewrite dshape_to_schema_Record.
    change (fun field : string * Mono =>
              bind (dshape_to_schema (deoption (snd field))) (fun s =>
              Ok (mkStructField (fst field) s (is_Option (snd field)))))
      with field_to_schema.
    assert (Hl : (forall fs,
                    mapM field_to_schema
                      (map (fun f => (fst f, launder (snd f))) fields') = Ok fs ->
                    fs = fields) /\
                 (forallb (fun field => plain (dataType field)) fields = true ->
                  mapM field_to_schema
                    (map (fun f => (fst f, launder (snd f))) fields') = Ok fields)).
    { revert fields' E.
      induction IH as [|f fields Hf _ IHf]; intros fields' E.
      - injection E as <-. split; [intros fs H; now injection H|reflexivity].
      - cbn [mapM] in E.
        destruct (field_to_dshape f) as [y|err] eqn:Ey; [|discriminate E].
        destruct (mapM field_to_dshape fields) as [ys|err] eqn:Eys;
          [|discriminate E].
        injection E as <-.
        apply field_to_dshape_Ok in Ey as [te [Hte ->]].
        cbn [map mapM fst snd].
        rewrite field_to_schema_back
          by (apply (schema_to_dshape_form (dataType f)), Hte).
        destruct (Hf te Hte) as [Hf1 Hf2].
        destruct (IHf ys eq_refl) as [IH1 IH2]. split.
        + intros fs H.
          destruct (dshape_to_schema te) as [s|err]; [|discriminate H].
          cbn [bind] in H.
          destruct (mapM field_to_schema _) as [fs'|err]; [|discriminate H].
          injection H as <-.
          rewrite (Hf1 s eq_refl), StructField_eta, (IH1 fs' eq_refl).
          reflexivity.
        + cbn [forallb]. intros P. apply andb_true_iff in P as [P1 P2].
          rewrite (Hf2 P1). cbn [bind]. rewrite (IH2 P2), StructField_eta.
          reflexivity. }
    destruct Hl as [Hl1 Hl2]. split.
    + intros schema' H.
      destruct (mapM field_to_schema _) as [fs|err]; [|discriminate H].
      injection H as <-. now rewrite (Hl1 fs eq_refl).
    + intros P.
      change (plain (StructType fields))
        with (distinct (map name fields) &&
              forallb (fun field => plain (dataType field)) fields) in P.
      apply andb_true_iff in P as [_ P]. rewrite (Hl2 P). reflexivity.
Qed.

(** X2.  The round trip schema, shape, schema never returns another
    schema: it returns the schema it was given, or raises. *)
Theorem roundtrip_schema_same_or_error (schema schema' : DataType) :
  roundtrip_schema schema = Ok schema' -> schema' = schema.
Proof.
  unfold roundtrip_schema. intros H.
  destruct (schema_to_dshape schema) as [t|err] eqn:E; [|discriminate H].
  exact (proj1 (schema_back schema t E) schema' H).
Qed.

Lemma roundtrip_schema_same_or_error_witness :
  roundtrip_schema (ArrayType IntegerType true)
  = Ok (ArrayType IntegerType true) /\
  ArrayType IntegerType true = ArrayType IntegerType true.
Proof.
  assert (H : roundtrip_schema (ArrayType IntegerType true)
              = Ok (ArrayType IntegerType true)) by reflexivity.
  split; [exact H|].
  exact (roundtrip_schema_same_or_error _ _ H).
Defined.

Lemma in_both_in_table (schema : DataType) :
  in_both_tables schema = true -> in_table schema = true.
Proof.
  unfold in_both_tables, in_table, contains.
  destruct (dict_get String.eqb sparksql_to_dshape (type_name schema));
    [reflexivity | intros H; discriminate H].
Qed.

Lemma plain_iff (schema : DataType) :
  plain schema = readable schema && negb (holds_bytes schema).
Proof.
  induction schema as [schema Ha|e n IH|k v n IHk IHv|fields IH]
    using DataType_fields_ind.
  - destruct schema; try discriminate Ha; reflexivity.
  - exact IH.
  - reflexivity.
  - change (plain (StructType fields))
      with (distinct (map name fields) &&
            forallb (fun field => plain (dataType field)) fields).
    change (readable (StructType fields))
      with (distinct (map name fields) &&
            forallb (fun field => readable (dataType field)) fields).
    cbn [holds_bytes].
    assert (Hl : forallb (fun field => plain (dataType field)) fields
                 = forallb (fun field => readable (dataType field)) fields &&
                   negb (existsb (fun field => holds_bytes (dataType field)) fields)).
    { induction IH as [|f fields Hf _ IHf]; [reflexivity|].
      cbn [forallb existsb]. rewrite Hf, IHf, negb_orb.
      generalize (readable (dataType f)) (holds_bytes (dataType f))
                 (forallb (fun field => readable (dataType field)) fields)
                 (existsb (fun field => holds_bytes (dataType field)) fields).
      intros [] [] [] []; reflexivity. }
    rewrite Hl. now rewrite andb_assoc.
Qed.

(** X3.  The round trip schema, shape, schema gives the schema back
    exactly on the schemas built from the nine scalar types that both
    tables hold (short, integer, long, float, double, string, boolean,
    timestamp, date) by arrays and by structs whose field names are
    distinct, nullable or not. *)
Theorem roundtrip_schema_plain (schema : DataType) :
  roundtrip_schema schema = Ok schema <-> plain schema = true.
Proof.
  split.
  - intros H. rewrite plain_iff.
    pose proof (schema_to_dshape_Raise schema) as Hr.
    unfold roundtrip_schema in H.
    destruct (schema_to_dshape schema) as [t|err] eqn:E; [|discriminate H].
    cbn [is_Raise] in Hr. cbn [bind] in H.
    destruct (readable schema); [|discriminate Hr]. cbn [andb].
    destruct (holds_bytes schema) eqn:Hb; [|reflexivity].
    pose proof (holds_bytes_raises schema Hb t E) as Hx.
    rewrite H in Hx. discriminate Hx.
  - intros P. unfold roundtrip_schema.
    pose proof (schema_to_dshape_Raise schema) as Hr.
    rewrite plain_iff in P. apply andb_true_iff in P as [P1 P2].
    rewrite P1 in Hr.
    destruct (schema_to_dshape schema) as [t|err] eqn:E; [|discriminate Hr].
    cbn [bind]. apply (proj2 (schema_back schema t E)).
    rewrite plain_iff, P1, P2. reflexivity.
Qed.

Lemma roundtrip_schema_plain_witness :
  plain (StructType [mkStructField "id" LongType false;
                     mkStructField "tags" (ArrayType StringType true) true])
  = true /\
  roundtrip_schema
    (StructType [mkStructField "id" LongType false;
                 mkStructField "tags" (ArrayType StringType true) true])
  = Ok (StructType [mkStructField "id" LongType false;
                    mkStructField "tags" (ArrayType StringType true) true]).
Proof.
  assert (P : plain (StructType
                       [mkStructField "id" LongType false;
                        mkStructField "tags" (ArrayType StringType true) true])
              = true) by reflexivity.
  split; [exact P|].
  exact (proj2 (roundtrip_schema_plain _) P).
Defined.
End schema_facts.


(* ================================================================== *)
(** ** More on [dshape_to_schema] *)
(* ================================================================== *)

Section dshape_to_schema_facts.
Import datashape py pyspark sparksql shapes schemas.

Lemma launder_dimension (d : Mono) : isdimension d = true -> launder d = d.
Proof. destruct d; try reflexivity. intros H. discriminate H. Qed.

Lemma launder_dimensions (dims : list Mono) (m : Mono) :
  Forall (fun d => isdimension d = true) dims ->
  is_singleton m = false ->
  map launder (dims ++ [m])%list = (dims ++ [m])%list.
Proof.
  intros Hd Hm. induction Hd as [|d dims Hd _ IH]; cbn [Datatypes.app map].
  - now rewrite not_singleton_launder.
  - now rewrite launder_dimension, IH.
Qed.

(** X4.  A shape of [k + 1] dimensions over a measure becomes [k + 1]
    array types around the schema of the measure: each dimension gives
    one level whatever its kind or length, only the innermost level can be
    nullable (when the measure is an [Option]), and an error on the
    measure is the error of the whole. *)
Theorem dimensions_to_nested_arrays (dims : list Mono) (m : Mono) :
  forall d : Mono,
    Forall (fun d => isdimension d = true) (d :: dims) ->
    is_singleton m = false ->
    dshape_to_schema (DataShape d (dims ++ [m])%list)
    = bind (dshape_to_schema (deoption m)) (fun s =>
      Ok (nest (length dims) (ArrayType s (is_Option m)))).
Proof.
  induction dims as [|d' dims IH]; intros d Hd Hm.
  - inversion Hd as [|? ? Hd0 _]; subst.
    cbn [Datatypes.app]. rewrite dshape_to_schema_dimension by exact Hd0.
    rewrite subshape0_cons. cbn [bind].
    rewrite element_measure, not_singleton_launder by exact Hm.
    reflexivity.
  - inversion Hd as [|? ? Hd0 Hd']; subst.
    inversion Hd' as [|? ? Hd1 Hds]; subst.
    cbn [Datatypes.app]. rewrite dshape_to_schema_dimension by exact Hd0.
    rewrite subshape0_cons. cbn [bind].
    assert (Hmk : mkDataShape d' (dims ++ [m])%list = DataShape d' (dims ++ [m])%list).
    { unfold mkDataShape.
      rewrite launder_dimension by exact Hd1.
      now rewrite launder_dimensions. }
    assert (He : element (DataShape d' (dims ++ [m])%list)
                 = DataShape d' (dims ++ [m])%list).
    { unfold element. cbn [is_DataShape len andb].
      destruct (dims ++ [m])%list eqn:E; [|reflexivity].
      destruct dims; discriminate E. }
    rewrite Hmk, He. cbn [deoption is_Option]. rewrite Hd1. cbn [negb].
    rewrite (IH d' Hd' Hm).
    destruct (dshape_to_schema (deoption m)); reflexivity.
Qed.

Lemma dimensions_to_nested_arrays_witness :
  Forall (fun d => isdimension d = true) [Fixed 10; Var] /\
  dshape_to_schema (DataShape (Fixed 10) [Var; Option int32])
  = Ok (ArrayType (ArrayType IntegerType true) false).
Proof.
  assert (H : Forall (fun d => isdimension d = true) [Fixed 10; Var]).
  { repeat constructor. }
  split; [exact H|].
  exact (dimensions_to_nested_arrays [Var] (Option int32) (Fixed 10) H eq_refl).
Defined.

Lemma Mono_eq_looked_up (k ds : Mono) :
  looked_up k = true -> looked_up ds = true ->
  Mono_eq k ds = Mono_eqb k ds.
Proof.
  intros Hk Hd. unfold Mono_eq.
  destruct k; try discriminate Hk; destruct ds; try discriminate Hd;
    reflexivity.
Qed.

(** X5.  On a shape that is neither a tuple, a record nor a [DataShape],
    [dshape_to_schema] returns a schema exactly when the pair of the shape
    and that schema is an entry of [dshape_to_sparksql]. *)
Theorem lookup_returns_table_entries (ds : Mono) (s : DataType) :
  looked_up ds = true ->
  (dshape_to_schema ds = Ok s <-> In (ds, s) dshape_to_sparksql).
Proof.
  intros Hl. rewrite dshape_to_schema_lookup by exact Hl. split.
  - intros H.
    destruct (dict_get Mono_eq dshape_to_sparksql ds) as [s'|] eqn:E;
      [|discriminate H].
    injection H as ->.
    unfold dshape_to_sparksql in *. cbn [dict_get] in E.
    repeat match type of E with
           | context [Mono_eq ?k ds] =>
               rewrite (Mono_eq_looked_up k ds eq_refl Hl) in E;
               destruct (Mono_eqb k ds) eqn:?
           end;
      try discriminate E; injection E as <-;
      repeat match goal with
             | H : Mono_eqb _ ds = true |- _ =>
                 apply Mono_eqb_eq in H; try subst ds
             | H : Mono_eqb _ _ = false |- _ => clear H
             end;
      cbn [In]; tauto.
  - intros H. unfold dshape_to_sparksql in H. cbn [In] in H.
    repeat (destruct H as [H|H]; [injection H as <- <-; reflexivity|]).
    contradiction.
Qed.

Lemma lookup_returns_table_entries_witness :
  looked_up time_ = true /\
  (dshape_to_schema time_ = Ok TimestampType <->
   In (time_, TimestampType) dshape_to_sparksql).
Proof.
  split; [reflexivity|].
  apply (lookup_returns_table_entries time_ TimestampType). reflexivity.
Defined.

(** X6.  An [Option] is converted only as the type of a record field or
    as the element of an array, where it makes the field or the array
    nullable; as the shape itself, bare or as the only parameter of a
    [DataShape] (the parsed form of ['?int32']), it raises
    [NotImplementedError]. *)
Theorem option_only_inside (ty : Mono) (name : string) :
  dshape_to_schema (Option ty) = Raise (NotImplementedError None) /\
  dshape_to_schema (DataShape (Option ty) []) = Raise (NotImplementedError None) /\
  dshape_to_schema (Record [(name, Option ty)])
  = bind (dshape_to_schema ty) (fun s =>
    Ok (StructType [mkStructField name s true])) /\
  dshape_to_schema (DataShape Var [Option ty])
  = bind (dshape_to_schema ty) (fun s => Ok (ArrayType s true)).
Proof.
  assert (H : dshape_to_schema (Option ty) = Raise (NotImplementedError None)).
  { rewrite dshape_to_schema_lookup by reflexivity. reflexivity. }
  split; [exact H|]. split; [|split].
  - rewrite dshape_to_schema_wrapper by reflexivity. exact H.
  - rewrite dshape_to_schema_Record. cbn [mapM fst snd deoption is_Option].
    destruct (dshape_to_schema ty); reflexivity.
  - rewrite dshape_to_schema_dimension by reflexivity.
    rewrite subshape0_cons. cbn [bind]. rewrite element_measure.
    reflexivity.
Qed.

(** X7.  A record is converted field by field in order: the conversion
    fails exactly when the conversion of some field type (its optional
    layer removed) fails, with the error of the first such field; field
    names, repeated or not, play no part. *)
Theorem record_fails_on_first_bad_field :
  (forall fields : list (string * Mono),
     is_Raise (dshape_to_schema (Record fields))
     = existsb (fun f => is_Raise (dshape_to_schema (deoption (snd f)))) fields) /\
  (forall (before after : list (string * Mono)) (name : string) (typ : Mono)
          (e : exn),
     forallb (fun f => negb (is_Raise (dshape_to_schema (deoption (snd f)))))
             before = true ->
     dshape_to_schema (deoption typ) = Raise e ->
     dshape_to_schema (Record (before ++ (name, typ) :: after)%list) = Raise e).
Proof.
  split.
  - intros fields. rewrite dshape_to_schema_Record.
    induction fields as [|[n t] fields IH]; [reflexivity|].
    cbn [mapM existsb fst snd].
    destruct (dshape_to_schema (deoption t)); [|reflexivity].
    cbn [bind is_Raise orb]. rewrite <- IH.
    destruct (mapM _ fields); reflexivity.
  - intros before after name typ e Hb He.
    rewrite dshape_to_schema_Record.
    induction before as [|[n t] before IH].
    + cbn [Datatypes.app mapM fst snd]. rewrite He. reflexivity.
    + cbn [forallb snd] in Hb. apply andb_true_iff in Hb as [Hb1 Hb2].
      cbn [Datatypes.app mapM fst snd].
      destruct (dshape_to_schema (deoption t)); [|discriminate Hb1].
      cbn [bind].
      destruct (mapM _ (before ++ (name, typ) :: after)%list) as [fs|e'] eqn:E.
      * specialize (IH Hb2). discriminate IH.
      * specialize (IH Hb2). cbn [bind] in IH. injection IH as ->.
        reflexivity.
Qed.

Lemma record_fails_on_first_bad_field_witness :
  dshape_to_schema
    (Record [("a", int32); ("b", Option int8); ("c", Tuple [int32])])
  = Raise (NotImplementedError None).
Proof.
  apply (proj2 record_fails_on_first_bad_field
           [("a", int32)] [("c", Tuple [int32])] "b" (Option int8));
    reflexivity.
Defined.
End dshape_to_schema_facts.


(* ================================================================== *)
(** ** The schemas of registered frames, and their names *)
(* ================================================================== *)

Section frames_facts.
Import datashape py pyspark sparksql shapes schemas frames.

Lemma last_snoc (ps : list Mono) (m p : Mono) : last (ps ++ [m])%list p = m.
Proof.
  induction ps as [|q ps IH]; [reflexivity|].
  cbn [Datatypes.app]. destruct (ps ++ [m])%list eqn:E; [|exact IH].
  destruct ps; discriminate E.
Qed.

(** X8.  The schema [rdd_to_sqlcontext] applies is the schema of the
    measure alone when the shape starts with a dimension: every dimension
    before the measure is dropped, not only the first; when the shape
    starts with anything else, it is the schema of that first
    parameter. *)
Theorem rdd_schema_of_measure (p : Mono) (ps : list Mono) (m : Mono) :
  (isdimension p = true ->
   rdd_sql_schema p (ps ++ [m])%list = dshape_to_schema m) /\
  (isdimension p = false ->
   rdd_sql_schema p ps = dshape_to_schema p).
Proof.
  unfold rdd_sql_schema. split; intros H; rewrite H.
  - cbn [measure]. now rewrite last_snoc.
  - apply dshape_to_schema_wrapper. exact H.
Qed.

Lemma rdd_schema_of_measure_witness :
  isdimension (Fixed 10) = true /\
  rdd_sql_schema (Fixed 10) [Fixed 10; Record [("x", int32); ("y", int32)]]
  = Ok (StructType [mkStructField "x" IntegerType false;
                    mkStructField "y" IntegerType false]).
Proof.
  split; [reflexivity|].
  exact (proj1 (rdd_schema_of_measure (Fixed 10) [Fixed 10]
                  (Record [("x", int32); ("y", int32)])) eq_refl).
Defined.

(** X9.  What is discovered of a frame can be applied again: for a frame
    whose schema is a struct built from the nine scalar types of both
    tables, [discover_spark_data_frame] gives [var] rows of a record, and
    the schema [rdd_to_sqlcontext] derives from that shape is the frame's
    schema. *)
Theorem discovered_frame_schema_applies (fields : list (StructField DataType)) :
  plain (StructType fields) = true ->
  exists r,
    discover_spark_data_frame (StructType fields) = Ok (DataShape Var [r]) /\
    is_Record r = true /\
    rdd_sql_schema Var [r] = Ok (StructType fields).
Proof.
  intros P.
  destruct (schema_to_dshape (StructType fields)) as [t|e] eqn:E.
  - pose proof (proj2 (schema_back _ t E) P) as Hb.
    unfold discover_spark_data_frame. rewrite E. cbn [bind].
    rewrite schema_to_dshape_StructType in E.
    destruct (mapM field_to_dshape fields) as [fields'|err];
      cbn [bind] in E; [|discriminate E].
    destruct (mkRecord fields') as [r|err] eqn:Er; cbn [bind] in E;
      [|discriminate E].
    apply mkRecord_Ok in Er. subst r. injection E as <-.
    eexists. split; [reflexivity|]. split; [reflexivity|].
    unfold rdd_sql_schema. cbn [isdimension measure last].
    cbn [dshape] in Hb. unfold mkDataShape in Hb. cbn [launder map] in Hb.
    rewrite dshape_to_schema_wrapper in Hb by reflexivity. exact Hb.
  - pose proof (schema_to_dshape_Raise (StructType fields)) as H.
    rewrite E in H. rewrite plain_iff in P.
    apply andb_true_iff in P as [P _]. rewrite P in H. discriminate H.
Qed.

Lemma discovered_frame_schema_applies_witness :
  plain (StructType [mkStructField "name" StringType false;
                     mkStructField "amount" IntegerType true]) = true /\
  exists r,
    discover_spark_data_frame
      (StructType [mkStructField "name" StringType false;
                   mkStructField "amount" IntegerType true])
    = Ok (DataShape Var [r]) /\
    is_Record r = true /\
    rdd_sql_schema Var [r]
    = Ok (StructType [mkStructField "name" StringType false;
                      mkStructField "amount" IntegerType true]).
Proof.
  split; [reflexivity|].
  apply discovered_frame_schema_applies. reflexivity.
Defined.



Lemma tmp_name_inj (i j : nat) : tmp_name i = tmp_name j -> i = j.
Proof.
  unfold tmp_name. intros H. cbn in H. injection H as H.
  apply DecimalNat.Unsigned.to_uint_inj.
  assert (E : Some (Nat.to_uint i) = Some (Nat.to_uint j)).
  { rewrite <- (NilEmpty.usu (Nat.to_uint i)).
    rewrite <- (NilEmpty.usu (Nat.to_uint j)).
    now rewrite H. }
  now injection E.
Qed.

Lemma table_names_anonymous (k given : nat) :
  table_names (repeat None k) given = map tmp_name (seq given k).
Proof.
  revert given. induction k as [|k IH]; intros given; [reflexivity|].
  cbn [repeat table_names table_name next_name seq map].
  now rewrite IH.
Qed.

(** X11.  The generated table names never repeat: ['tmp%d' % i] is
    different for different [i], any run of registrations without a name
    is given pairwise different names, and a registration with a name of
    its own takes no generated name. *)
Theorem generated_names_distinct :
  (forall i j, tmp_name i = tmp_name j -> i = j) /\
  (forall k given, NoDup (table_names (repeat None k) given)) /\
  (forall (c : ascii) (s : string) (asked : list (option string)) (given : nat),
     table_names (Some (String c s) :: asked) given
     = String c s :: table_names asked given).
Proof.
  split; [exact tmp_name_inj|]. split; [|reflexivity].
  intros k given. rewrite table_names_anonymous.
  generalize (seq_NoDup k given). generalize (seq given k).
  intros l Hl. induction Hl as [|x l Hx _ IH]; cbn [map]; constructor.
  - intros Hin. apply in_map_iff in Hin as [y [Hy Hin]].
    apply tmp_name_inj in Hy. subst y. exact (Hx Hin).
  - exact IH.
Qed.

Lemma generated_names_distinct_witness :
  tmp_name 7 = tmp_name 7 /\ 7 = 7.
Proof.
  split; [reflexivity|].
  exact (proj1 generated_names_distinct 7 7 eq_refl).
Defined.
End frames_facts.


(* ================================================================== *)
(** ** The tables of a store *)
(* ================================================================== *)

Section tables_facts.
Import datashape py qtable handles.

Lemma lower_ascii_idem (c : ascii) : lower_ascii (lower_ascii c) = lower_ascii c.
Proof.
  destruct c as [[] [] [] [] [] [] [] []]; reflexivity.
Qed.

Lemma lower_idem (s : string) : lower (lower s) = lower s.
Proof.
  induction s as [|c s IH]; cbn [lower]; [reflexivity|].
  now rewrite lower_ascii_idem, IH.
Qed.

Lemma mapM_ext {A B : Type} (f g : A -> result B) (l : list A) :
  (forall x, f x = g x) -> mapM f l = mapM g l.
Proof.
  intros H. induction l as [|x l IH]; cbn [mapM]; [reflexivity|].
  now rewrite H, IH.
Qed.

Lemma mapM_map {A B C : Type} (h : A -> B) (f : B -> result C) (l : list A) :
  mapM f (map h l) = mapM (fun x => f (h x)) l.
Proof.
  induction l as [|x l IH]; cbn [mapM map]; [reflexivity|].
  now rewrite IH.
Qed.

Lemma column_types_lower (m : meta) :
  column_types (lower_codes m) = column_types m.
Proof.
  unfold column_types, lower_codes, fillna. cbn [t].
  rewrite map_map, !mapM_map. apply mapM_ext.
  intros [s|]; cbn [option_map]; [now rewrite lower_idem | reflexivity].
Qed.

(** X12.  [tables] reads the type codes without regard to case: a store
    that answers with upper-case codes gets the tables it would get with
    the same codes in lower case. *)
Theorem tables_ignore_case (names : list string) (metadata : list meta) :
  tables names (map lower_codes metadata) = tables names metadata.
Proof.
  unfold tables. f_equal.
  revert metadata. induction names as [|n names IH]; intros [|m metadata];
    try reflexivity.
  cbn [map zip mapM fst snd].
  rewrite column_types_lower. change (index (lower_codes m)) with (index m).
  now rewrite IH.
Qed.

Lemma known_code_getitem (s : string) :
  contains String.eqb qtypes s = true ->
  exists ds, getitem qtypes s = Ok ds.
Proof.
  unfold contains, getitem.
  destruct (dict_get String.eqb qtypes s) as [ds|]; [|intros H; discriminate H].
  intros _. now exists ds.
Qed.

Lemma unknown_code_getitem (s : string) :
  contains String.eqb qtypes s = false ->
  getitem qtypes s = Raise (KeyError s).
Proof.
  unfold contains, getitem.
  destruct (dict_get String.eqb qtypes s); [intros H; discriminate H|].
  reflexivity.
Qed.

(** X13.  The column types of a table are found exactly when every code,
    lowered, is a key of [qtypes] (a missing code counts as the empty
    one): then there is one type per code; otherwise the first code that
    is not a key raises [KeyError] on its lowered form, and no types are
    returned. *)
Theorem column_types_all_or_error (index_ : list string) :
  (forall codes,
     forallb known_code codes = true ->
     exists types, column_types (mkMeta index_ codes) = Ok types /\
                   length types = length codes) /\
  (forall before s after,
     forallb known_code before = true ->
     known_code (Some s) = false ->
     column_types (mkMeta index_ (before ++ Some s :: after)%list)
     = Raise (KeyError (lower s))).
Proof.
  unfold column_types, fillna. cbn [t]. split.
  - induction codes as [|c codes IH]; intros H.
    + exists []. split; reflexivity.
    + cbn [forallb] in H. apply andb_true_iff in H as [Hc H].
      destruct (IH H) as [types [E L]].
      cbn [map mapM]. 
      assert (Hk : exists ds,
                 getitem qtypes
                   (lower match c with Some s => s | None => "" end) = Ok ds).
      { destruct c as [s|]; [apply known_code_getitem; exact Hc|].
        eexists; reflexivity. }
      destruct Hk as [ds ->]. rewrite E.
      exists (ds :: types). split; [reflexivity|]. cbn [length]. now rewrite L.
  - intros before s after Hb Hs. cbn [known_code] in Hs.
    induction before as [|c before IH].
    + cbn [Datatypes.app map mapM].
      now rewrite (unknown_code_getitem (lower s) Hs).
    + cbn [forallb] in Hb. apply andb_true_iff in Hb as [Hc Hb].
      cbn [Datatypes.app map mapM].
      assert (Hk : exists ds,
                 getitem qtypes
                   (lower match c with Some s => s | None => "" end) = Ok ds).
      { destruct c as [s'|]; [apply known_code_getitem; exact Hc|].
        eexists; reflexivity. }
      destruct Hk as [ds ->]. cbn [Datatypes.app map] in IH.
      now rewrite (IH Hb).
Qed.

Lemma column_types_all_or_error_witness :
  column_types (mkMeta ["sym"; "px"; "qty"] [Some "s"; Some "G"; Some "j"])
  = Raise (KeyError "g").
Proof.
  apply (proj2 (column_types_all_or_error ["sym"; "px"; "qty"])
               [Some "s"] "G" [Some "j"]); reflexivity.
Defined.

Lemma distinct_NoDup (l : list string) : distinct l = true <-> NoDup l.
Proof.
  induction l as [|x l IH]; cbn [distinct].
  - split; [constructor | reflexivity].
  - rewrite andb_true_iff, IH, negb_true_iff. split.
    + intros [Hx Hl]. constructor; [|exact Hl].
      intros Hin. assert (E : existsb (String.eqb x) l = true).
      { apply existsb_exists. exists x. split; [exact Hin|].
        apply String.eqb_refl. }
      rewrite E in Hx. discriminate Hx.
    + intros H. inversion H as [|? ? Hx Hl]; subst. split; [|exact Hl].
      destruct (existsb (String.eqb x) l) eqn:E; [|reflexivity].
      apply existsb_exists in E as [y [Hin Hy]].
      apply String.eqb_eq in Hy. subst y. contradiction.
Qed.

Lemma mkRecord_distinct (fields : list (string * Mono)) (r : Mono) :
  mkRecord fields = Ok r -> distinct (map fst fields) = true.
Proof.
  unfold mkRecord. destruct (distinct (map fst fields));
    [reflexivity | intros H; discriminate H].
Qed.

Section od_set_facts.
Context {V : Type}.

Lemma od_set_In (d : list (string * V)) (k : string) (v : V) (kv : string * V) :
  In kv (od_set d k v) -> kv = (k, v) \/ In kv d.
Proof.
  induction d as [|[k' v'] d IH]; cbn [od_set].
  - intros [<-|[]]. left; reflexivity.
  - destruct (String.eqb_spec k' k) as [->|_].
    + intros [<-|H]; [left; reflexivity | right; right; exact H].
    + intros [<-|H]; [right; left; reflexivity|].
      destruct (IH H) as [->|H']; [left; reflexivity | right; right; exact H'].
Qed.

Lemma od_set_keys (d : list (string * V)) (k : string) (v : V) (x : string) :
  In x (map fst (od_set d k v)) <-> x = k \/ In x (map fst d).
Proof.
  induction d as [|[k' v'] d IH]; cbn [od_set map fst In].
  - intuition congruence.
  - destruct (String.eqb_spec k' k) as [->|_]; cbn [map fst In].
    + intuition congruence.
    + rewrite IH. intuition congruence.
Qed.

Lemma od_set_NoDup (d : list (string * V)) (k : string) (v : V) :
  NoDup (map fst d) -> NoDup (map fst (od_set d k v)).
Proof.
  induction d as [|[k' v'] d IH]; cbn [od_set map fst]; intros H.
  - constructor; [intros [] | constructor].
  - inversion H as [|? ? Hk Hd]; subst.
    destruct (String.eqb_spec k' k) as [->|Hne]; cbn [map fst].
    + constructor; assumption.
    + constructor; [|apply IH; exact Hd].
      rewrite od_set_keys. intros [->|Hin]; [now apply Hne | exact (Hk Hin)].
Qed.

Lemma fold_od_set (syms : list (string * V)) :
  forall d : list (string * V),
    NoDup (map fst d) ->
    let tbl := fold_left (fun d kv => od_set d (fst kv) (snd kv)) syms d in
    NoDup (map fst tbl) /\
    (forall kv, In kv tbl -> In kv syms \/ In kv d) /\
    (forall x, In x (map fst tbl) <-> In x (map fst syms) \/ In x (map fst d)).
Proof.
  induction syms as [|[k v] syms IH]; intros d Hd; cbn [fold_left fst snd].
  - repeat split; [exact Hd | now right | now right | intros [[]|H]; exact H].
  - destruct (IH (od_set d k v) (od_set_NoDup d k v Hd)) as [H1 [H2 H3]].
    split; [exact H1|]. split.
    + intros kv Hin. destruct (H2 kv Hin) as [H|H]; [left; right; exact H|].
      destruct (od_set_In d k v kv H) as [->|H']; [left; left; reflexivity|].
      right; exact H'.
    + intros x. rewrite H3, od_set_keys. cbn [map fst In].
      intuition congruence.
Qed.

Lemma getitem_NoDup (d : list (string * V)) (k : string) (v : V) :
  NoDup (map fst d) -> In (k, v) d -> getitem d k = Ok v.
Proof.
  unfold getitem. induction d as [|[k' v'] d IH]; intros Hd Hin; [contradiction|].
  cbn [map fst] in Hd. inversion Hd as [|? ? Hk Hd']; subst.
  cbn [dict_get]. destruct Hin as [E|Hin].
  - injection E as -> ->.
    rewrite (dict_get_notin d k Hk), String.eqb_refl. reflexivity.
  - specialize (IH Hd' Hin).
    destruct (dict_get String.eqb d k); [exact IH | discriminate IH].
Qed.
End od_set_facts.

(** What [tables] has built when it returns. *)
Lemma tables_invariant (names : list string) (metadata : list meta)
      (tbl : list (string * Symbol)) :
  tables names metadata = Ok tbl ->
  NoDup (map fst tbl) /\
  (forall kv, In kv tbl ->
     sym_name (snd kv) = fst kv /\ table_dshape (sym_dshape (snd kv))) /\
  (forall x, In x (map fst tbl) <-> In x (map fst (zip names metadata))).
Proof.
  unfold tables. intros H.
  destruct (mapM _ (zip names metadata)) as [syms|e] eqn:E; [|discriminate H].
  injection H as <-.
  assert (Hs : (forall kv, In kv syms ->
                  sym_name (snd kv) = fst kv /\
                  table_dshape (sym_dshape (snd kv))) /\
               map fst syms = map fst (zip names metadata)).
  { revert syms E. generalize (zip names metadata) as l.
    induction l as [|[n m] l IH]; intros syms E.
    - injection E as <-. split; [intros kv []|reflexivity].
    - cbn [mapM fst snd] in E.
      destruct (column_types m) as [types|e]; [|discriminate E].
      cbn [bind] in E.
      destruct (mkRecord (zip (index m) types)) as [r|e] eqn:Er;
        [|discriminate E].
      cbn [bind] in E.
      destruct (mapM _ l) as [syms'|e] eqn:El; [|discriminate E].
      injection E as <-.
      destruct (IH syms' eq_refl) as [IH1 IH2]. split.
      + intros kv [<-|Hin]; [|exact (IH1 kv Hin)].
        cbn [fst snd sym_name sym_dshape]. split; [reflexivity|].
        pose proof (mkRecord_distinct _ _ Er) as Hd.
        apply mkRecord_Ok in Er. subst r.
        eexists. split; [reflexivity|].
        rewrite map_map. cbn [fst]. exact Hd.
      + cbn [map fst]. now rewrite IH2. }
  destruct Hs as [Hs1 Hs2].
  destruct (fold_od_set syms [] (NoDup_nil _)) as [H1 [H2 H3]].
  unfold Tables. split; [exact H1|]. split.
  - intros kv Hin. destruct (H2 kv Hin) as [H|[]]. exact (Hs1 kv H).
  - intros x. rewrite H3, Hs2. cbn [map In]. tauto.
Qed.

Lemma zip_keys (names : list string) (metadata : list meta) :
  length names <= length metadata ->
  map fst (zip names metadata) = names.
Proof.
  revert metadata. induction names as [|n names IH]; intros [|m metadata] H;
    cbn [length] in H; try reflexivity; try lia.
  cbn [zip map fst]. rewrite IH by lia. reflexivity.
Qed.

Lemma zip_keys_In (names : list string) (metadata : list meta) (x : string) :
  In x (map fst (zip names metadata)) -> In x names.
Proof.
  revert metadata. induction names as [|n names IH]; intros [|m metadata];
    cbn [zip map fst In]; try tauto.
  intros [<-|H]; [left; reflexivity | right; exact (IH metadata H)].
Qed.

(** X14.  When [tables] returns, its keys are pairwise different table
    names of the store, all of them when the store has a [meta] for each;
    looking a key up gives a symbol that carries that name and whose shape
    is [var] rows of a record with distinct column names; looking
    anything else up raises [KeyError]. *)
Theorem tables_symbols (names : list string) (metadata : list meta)
        (tbl : list (string * Symbol)) :
  tables names metadata = Ok tbl ->
  NoDup (map fst tbl) /\
  (forall name, In name (map fst tbl) -> In name names) /\
  (length names <= length metadata ->
   forall name, In name names -> In name (map fst tbl)) /\
  (forall name, In name (map fst tbl) ->
     exists sym, getitem tbl name = Ok sym /\ sym_name sym = name /\
                 table_dshape (sym_dshape sym)) /\
  (forall name, ~ In name (map fst tbl) ->
     getitem tbl name = Raise (KeyError name)).
Proof.
  intros H. destruct (tables_invariant names metadata tbl H) as [H1 [H2 H3]].
  split; [exact H1|]. split; [|split; [|split]].
  - intros name Hin. apply H3 in Hin. exact (zip_keys_In _ _ _ Hin).
  - intros Hl name Hin. apply H3. now rewrite zip_keys.
  - intros name Hin. apply in_map_iff in Hin as [[k sym] [Hk Hin]].
    cbn [fst] in Hk. subst k. exists sym.
    destruct (H2 _ Hin) as [Hn Hd]. cbn [fst snd] in Hn, Hd.
    split; [exact (getitem_NoDup tbl name sym H1 Hin)|]. split; assumption.
  - intros name Hout. apply getitem_notin. exact Hout.
Qed.

Lemma tables_symbols_witness :
  NoDup (map fst [("trade",
                   mkSymbol "trade"
                     (DataShape Var [Record [("sym", string_);
                                             ("price", float64)]]))]).
Proof.
  apply (tables_symbols ["trade"; "quote"]
           [mkMeta ["sym"; "price"] [Some "s"; Some "F"]]).
  reflexivity.
Defined.

(** X15.  [discover_kq] adds no failure of its own: when [tables] raises,
    it raises the same, and when [tables] returns, it returns the record,
    in a [DataShape], of the table names with the shapes of their symbols,
    in the order of the tables; the record constructor never meets a
    repeated name. *)
Theorem discover_kq_of_tables (names : list string) (metadata : list meta) :
  (forall tbl, tables names metadata = Ok tbl ->
     discover_kq names metadata
     = Ok (DataShape
             (Record (map (fun kv => (fst kv, sym_dshape (snd kv))) tbl)) [])) /\
  (forall e, tables names metadata = Raise e ->
     discover_kq names metadata = Raise e).
Proof.
  split; [|intros e H; unfold discover_kq; rewrite H; reflexivity].
  intros tbl H. destruct (tables_invariant names metadata tbl H) as [H1 [H2 _]].
  unfold discover_kq. rewrite H. cbn [bind]. unfold mkRecord.
  rewrite !map_map. cbn [fst snd].
  rewrite (proj2 (distinct_NoDup (map (fun x => fst x) tbl)) H1).
  cbn [bind]. unfold mkDataShape. cbn [launder map].
  do 3 f_equal. clear H H1.
  induction tbl as [|[k sym] tbl IH]; [reflexivity|].
  cbn [map zip fst snd].
  destruct (H2 (k, sym) (or_introl eq_refl)) as [_ [fields [E _]]].
  cbn [snd] in E. rewrite E at 1. cbn [launder]. rewrite <- E.
  rewrite IH; [reflexivity|].
  intros kv Hin. apply H2. right. exact Hin.
Qed.

Lemma discover_kq_of_tables_witness :
  discover_kq ["t"; "u"]
              [mkMeta ["a"] [Some "j"]; mkMeta ["b"; "c"] [None; Some "D"]]
  = Ok (DataShape
          (Record [("t", DataShape Var [Record [("a", int64)]]);
                   ("u", DataShape Var [Record [("b", null); ("c", date_)]])])
          []).
Proof.
  exact (proj1 (discover_kq_of_tables ["t"; "u"]
                  [mkMeta ["a"] [Some "j"];
                   mkMeta ["b"; "c"] [None; Some "D"]])
               [("t", mkSymbol "t" (DataShape Var [Record [("a", int64)]]));
                ("u", mkSymbol "u"
                        (DataShape Var [Record [("b", null); ("c", date_)]]))]
               eq_refl).
Defined.


End tables_facts.


(* ================================================================== *)
(** ** What the conversions never give, and repeated [deoption] *)
(* ================================================================== *)

Section never_facts.
Import datashape py pyspark sparksql shapes schemas frames qtable.

Lemma dshape_to_schema_unwrap_eq (ds : Mono) :
  dshape_to_schema ds = dshape_to_schema (unwrap ds).
Proof.
  induction ds as [| | | | | | | | | |ty IH|fs|l|p IH ps];
    cbn [unwrap]; try reflexivity.
  destruct (isdimension p) eqn:Hp; cbn [negb]; [reflexivity|].
  rewrite dshape_to_schema_wrapper by exact Hp. exact IH.
Qed.

(** X17.  [dshape_to_schema] looks through every [DataShape] whose first
    parameter is not a dimension, however deep, and ignores the other
    parameters of such a wrapper: a record parsed into a [DataShape]
    converts as the record itself. *)
Theorem dshape_to_schema_through_wrappers (ds : Mono)
        (fields : list (string * Mono)) (ps : list Mono) :
  dshape_to_schema ds = dshape_to_schema (unwrap ds) /\
  dshape_to_schema (DataShape (Record fields) ps)
  = dshape_to_schema (Record fields) /\
  dshape_to_schema (DataShape (DataShape (Record fields) []) ps)
  = dshape_to_schema (Record fields).
Proof.
  split; [apply dshape_to_schema_unwrap_eq|]. split.
  - apply dshape_to_schema_wrapper. reflexivity.
  - rewrite dshape_to_schema_unwrap_eq. cbn [unwrap isdimension negb].
    reflexivity.
Qed.

Lemma table_values_scalars :
  forall ds s, dict_get Mono_eq dshape_to_sparksql ds = Some s ->
               scalars_all in_both_tables s = true.
Proof.
  intros ds s H. unfold dshape_to_sparksql in H. cbn [dict_get] in H.
  repeat match type of H with
         | context [Mono_eq ?k ds] => destruct (Mono_eq k ds)
         end;
    try discriminate H; injection H as <-; reflexivity.
Qed.

Lemma dshape_to_schema_scalars (n : nat) :
  forall ds s, size ds < n -> dshape_to_schema ds = Ok s ->
               scalars_all in_both_tables s = true.
Proof.
  induction n as [|n IH]; intros ds s Hn H; [lia|].
  destruct ds as [c| | | | | | |u| |z|ty|fields|l|p ps];
    try (rewrite dshape_to_schema_lookup in H by reflexivity;
         match type of H with
         | context [dict_get ?e ?d ?k] =>
             destruct (dict_get e d k) as [s'|] eqn:E; [|discriminate H]
         end;
         injection H as <-; exact (table_values_scalars _ _ E)).
  - rewrite dshape_to_schema_Record in H. rewrite size_Record in Hn.
    destruct (mapM _ fields) as [fs|e] eqn:E; [|discriminate H].
    injection H as <-. cbn [scalars_all].
    revert fs E. induction fields as [|[name typ] fields IHf]; intros fs E.
    + injection E as <-. reflexivity.
    + cbn [field_sizes] in Hn. cbn [mapM fst snd] in E.
      destruct (dshape_to_schema (deoption typ)) as [s|e] eqn:Es;
        [|discriminate E].
      cbn [bind] in E.
      destruct (mapM _ fields) as [fs'|e] eqn:Ef; [|discriminate E].
      injection E as <-. cbn [forallb dataType].
      pose proof (size_deoption typ).
      rewrite (IH (deoption typ) s) by (lia || exact Es).
      rewrite (IHf ltac:(lia) fs' eq_refl). reflexivity.
  - rewrite dshape_to_schema_Tuple in H. discriminate H.
  - destruct (isdimension p) eqn:Hp.
    + rewrite dshape_to_schema_dimension in H by exact Hp.
      destruct (subshape0 (DataShape p ps)) as [elem|e] eqn:E;
        [|discriminate H].
      cbn [bind] in H. apply size_subshape0 in E.
      destruct (dshape_to_schema (deoption (element elem))) as [s'|e] eqn:Es;
        [|discriminate H].
      injection H as <-. cbn [scalars_all].
      pose proof (size_element elem).
      pose proof (size_deoption (element elem)).
      apply (IH (deoption (element elem))); [lia | exact Es].
    + rewrite dshape_to_schema_wrapper in H by exact Hp.
      rewrite size_DataShape in Hn. apply (IH p); [lia | exact H].
Qed.

(** X18.  Whatever shape it is given, a schema that [dshape_to_schema]
    returns is made of arrays, structs and the nine scalar types that both
    tables hold: it never holds a byte, binary, decimal, null or map
    type. *)
Theorem dshape_to_schema_never_unmapped (ds : Mono) (s : DataType) :
  dshape_to_schema ds = Ok s ->
  scalars_all in_both_tables s = true /\ holds_bytes s = false.
Proof.
  intros H.
  pose proof (dshape_to_schema_scalars (S (size ds)) ds s ltac:(lia) H) as Hs.
  split; [exact Hs|]. clear H.
  induction s as [schema Ha|e n IH|k v n IHk IHv|fields IH]
    using DataType_fields_ind.
  - destruct schema; try discriminate Ha; try discriminate Hs; reflexivity.
  - exact (IH Hs).
  - reflexivity.
  - cbn [scalars_all] in Hs. cbn [holds_bytes].
    induction IH as [|f fields Hf _ IHf]; [reflexivity|].
    cbn [forallb] in Hs. apply andb_true_iff in Hs as [Hs1 Hs2].
    cbn [existsb]. now rewrite (Hf Hs1), (IHf Hs2).
Qed.

Lemma dshape_to_schema_never_unmapped_witness :
  dshape_to_schema (DataShape Var [Record [("t", Option time_)]])
  = Ok (ArrayType (StructType [mkStructField "t" TimestampType true]) false) /\
  scalars_all in_both_tables
    (ArrayType (StructType [mkStructField "t" TimestampType true]) false)
  = true.
Proof.
  assert (H : dshape_to_schema (DataShape Var [Record [("t", Option time_)]])
              = Ok (ArrayType
                      (StructType [mkStructField "t" TimestampType true])
                      false)) by reflexivity.
  split; [exact H|].
  exact (proj1 (dshape_to_schema_never_unmapped _ _ H)).
Defined.

(** X19.  The round trip gives back every storable shape, not only the
    records: a unit measure of both tables and an array shape ([var]
    dimensions over a storable element) come back as they are, a record
    comes back in a one-parameter [DataShape], and the shape that comes
    back is given back unchanged by a second round trip. *)
Theorem storable_shape_roundtrip (t : Mono) :
  storable t = true ->
  roundtrip t = Ok (back_shape t) /\
  (is_Record t = false -> back_shape t = t) /\
  roundtrip (back_shape t) = Ok (back_shape t).
Proof.
  intros Hs.
  destruct (storable_roundtrip (S (size t)) t ltac:(lia) Hs) as [s [Hf Hb]].
  assert (Hr : roundtrip t = Ok (back_shape t)).
  { unfold roundtrip. rewrite Hf. exact Hb. }
  split; [exact Hr|]. split.
  - destruct t; try reflexivity. intros H. discriminate H.
  - destruct (is_Record t) eqn:E.
    + destruct t; try discriminate E. cbn [back_shape].
      unfold roundtrip. rewrite dshape_to_schema_wrapper by reflexivity.
      rewrite Hf. exact Hb.
    + assert (Eb : back_shape t = t)
        by (destruct t; try reflexivity; discriminate E).
      rewrite Eb. rewrite Eb in Hr. exact Hr.
Qed.

Lemma storable_shape_roundtrip_witness :
  storable (DataShape Var [Var; Option (Record [("x", float64)])]) = true /\
  roundtrip (DataShape Var [Var; Option (Record [("x", float64)])])
  = Ok (DataShape Var [Var; Option (Record [("x", float64)])]).
Proof.
  assert (H : storable (DataShape Var [Var; Option (Record [("x", float64)])])
              = true) by reflexivity.
  split; [exact H|].
  exact (proj1 (storable_shape_roundtrip _ H)).
Defined.

Lemma deoption_shrinks (x : Mono) :
  deoption x = x \/ size (deoption x) < size x.
Proof.
  destruct x as [| | | | | | | | | |ty|fs|l|p ps]; try (left; reflexivity).
  - right. cbn [deoption size]. lia.
  - cbn [deoption]. destruct (negb (isdimension p)); [|left; reflexivity].
    right. pose proof (size_deoption p). rewrite size_DataShape. lia.
Qed.

Lemma iter_deoption_succ (k : nat) (x : Mono) :
  Nat.iter (S k) deoption x = Nat.iter k deoption (deoption x).
Proof.
  apply Nat.iter_succ_r.
Qed.

(** X20.  Applied again and again, [deoption] stops changing the shape
    after fewer applications than the shape has constructors, and the
    shape it stops at is neither an [Option] nor a [DataShape] whose first
    parameter is not a dimension. *)
Theorem deoption_settles (ds : Mono) :
  exists k,
    k < size ds /\
    deoption (Nat.iter k deoption ds) = Nat.iter k deoption ds /\
    is_Option (Nat.iter k deoption ds) = false /\
    is_wrapper (Nat.iter k deoption ds) = false.
Proof.
  remember (size ds) as n eqn:Hn.
  assert (H : size ds <= n) by lia. clear Hn. revert ds H.
  induction n as [|n IH]; intros ds H;
    [pose proof (size_pos ds); lia|].
  destruct (deoption_shrinks ds) as [E|Hlt].
  - exists 0. cbn [Nat.iter]. split; [lia|]. split; [exact E|].
    apply deoption_fixed. exact E.
  - destruct (IH (deoption ds) ltac:(lia)) as [k [Hk [E [Ho Hw]]]].
    exists (S k). rewrite iter_deoption_succ.
    split; [lia|]. split; [exact E|]. split; assumption.
Qed.

(** X21.  [tables] pairs the table names with the [meta] answers as far as
    both go: names beyond the answers, and answers beyond the names, are
    left out without an error. *)
Theorem tables_pairs_as_far_as_both_go (names : list string)
        (metadata : list meta) :
  tables names metadata
  = tables (firstn (length metadata) names) (firstn (length names) metadata).
Proof.
  unfold tables.
  assert (E : zip (firstn (length metadata) names)
                  (firstn (length names) metadata) = zip names metadata).
  { revert metadata. induction names as [|n names IH]; intros [|m metadata];
      try reflexivity.
    cbn [length firstn zip]. now rewrite IH. }
  now rewrite E.
Qed.
End never_facts.
